(** * Bacalhau: the Docker executor and the submit-request check

    A shallow embedding of
      - [pkg/executor/docker/executor.go]  (the [Executor], [RunShard],
        [cleanupJob], [dockerObjectName], [labelJobValue], ...), and
      - [pkg/requester/publicapi/utils.go] ([verifySubmitRequest]),
    together with the properties the specification states about them.

    Conventions of the embedding.
      - Go's [error] interface is the inductive [error]; a nilable error is
        an [option error] ([None] is [nil]).
      - A Go call returning [(v, err)] whose value is only read when
        [err == nil] is a sum [error + V].
      - [int], [int64] are [Z] in the signed 64-bit range, [uint64] is [Z]
        in [0, 2^64); conversions are written out with their wrap-around.
      - [float64] is a [spec_float] with the binary64 parameters.
      - Everything [RunShard] talks to (storage, the Docker daemon, the
        host's file system, the process environment) answers through a
        [World]; every call that touches it is appended to a trace of
        [Op]s kept in the [Host] state, next to the directories of the
        host's file system and the lines logged by the cleanup.
      - Tracing spans and the [Trace]/[Debug] log lines of the body of
        [RunShard] act on the observability collaborator only and leave
        no mark in [Host]. *)

From Stdlib Require Import ZArith String Ascii List Bool Lia.
From Stdlib Require Import Floats.SpecFloat.
From stdpp Require Import base strings gmap list pretty.

Open Scope Z_scope.
Open Scope string_scope.
Open Scope list_scope.

(** ** Go values shared by both packages *)

(** Reinterpreting a 64-bit pattern as a signed integer: the conversion
    [int64(x)] of a [uint64] (and the wrap-around of [int64] arithmetic). *)
Definition int64_wrap (x : Z) : Z := (x + 2 ^ 63) mod 2 ^ 64 - 2 ^ 63.

(** The conversion [int(x)] of an [int64]: [int] is 64 bits wide on the
    platforms the Docker daemon runs on. *)
Definition int_of_int64 (x : Z) : Z := x.

(** The binary64 operations of [spec_float]. *)
Definition float64 := spec_float.
Definition float64_mul : float64 -> float64 -> float64 := SFmul 53 1024.

(** An untyped integer constant used as a [float64]. *)
Definition float64_of_const (n : Z) : float64 := binary_normalize 53 1024 n 0 false.

(** The magnitude [m * 2^e] of a finite float cut to a whole number. *)
Definition float64_trunc_magnitude (m : positive) (e : Z) : Z :=
  match e with
  | Zneg p => Z.pos m / 2 ^ Z.pos p
  | _ => Z.pos m * 2 ^ e
  end.

(** The conversion [int64(f)] of a [float64]: the fraction is discarded
    (truncation towards zero); when the result does not fit (too large,
    an infinity, not a number) Go leaves the value to the implementation,
    here [unrepresentable f]. *)
Definition float64_to_int64 (unrepresentable : float64 -> Z) (f : float64) : Z :=
  match f with
  | S754_zero _ => 0
  | S754_finite s m e =>
      let t := float64_trunc_magnitude m e in
      let v := if s then - t else t in
      if bool_decide (- 2 ^ 63 <= v < 2 ^ 63) then v else unrepresentable f
  | _ => unrepresentable f
  end.

(** Modelled from the spec: the types of [pkg/model] ([JobShard], [Job],
    [Spec], [StorageSpec], [ResourceUsageData], ...) are declared outside
    the two packages embedded here. The spec: a JobShard is a parent job
    specification (container image, entrypoint, environment, working
    directory, declared inputs/contexts/outputs, resource requirements)
    plus a shard index; an OutputSpec is a declared name and a target
    sandbox path; ResourceRequirements are {cpuFraction: float,
    memoryBytes: uint64, gpuCount: uint}. The fields are named as the
    executor reads them; output volumes are storage specs too. A type
    whose name is also a field name carries a trailing underscore. *)
Module model.
Record StorageSpec := {
  StorageSource : string;
  Name : string;
  Path : string
}.
Record JobSpecDocker := {
  Image : string;
  Entrypoint : list string;
  EnvironmentVariables : list string;
  WorkingDirectory : string
}.
Record ResourceUsageConfig := {
  ConfigCPU : string;
  ConfigMemory : string;
  ConfigDisk : string;
  ConfigGPU : string
}.
(** [CPU] is a [float64], the others are [uint64]. *)
Record ResourceUsageData := {
  CPU : float64;
  Memory : Z;
  Disk : Z;
  GPU : Z
}.
Record Spec_ := {
  Docker : JobSpecDocker;
  Resources : ResourceUsageConfig;
  Contexts : list StorageSpec;
  Outputs : list StorageSpec
}.
Record Metadata_ := { ID : string }.
Record Job_ := { Metadata : Metadata_; Spec : Spec_ }.
Record JobShard := { Job : Job_; Index : Z }.
End model.

Global Instance StorageSpec_eq_dec : EqDecision model.StorageSpec.
Proof. solve_decision. Defined.

(** Verb arguments of [fmt.Errorf] / [errors.Wrapf] as the code passes
    them; they are kept unrendered inside the error value. *)
Inductive fmt_arg :=
| arg_string (s : string)
| arg_StorageSpec (spec : model.StorageSpec).

(** The error values the two packages build or pass on.
    [errors_New] also stands for an error handed over by a collaborator,
    known by its message. *)
#[warnings="-register-all"] Inductive error :=
| errors_New (msg : string)
| fmt_Errorf (format : string) (args : list fmt_arg)
| fmt_Errorf_w (format : string) (cause : error)
| errors_Wrap (cause : error) (msg : string)
| errors_Wrapf (cause : error) (format : string) (args : list fmt_arg)
| multierr_errors (errs : list error).

Global Instance fmt_arg_eq_dec : EqDecision fmt_arg.
Proof. solve_decision. Defined.

(** [strings.Join] *)
Definition strings_Join (elems : list string) (sep : string) : string :=
  String.concat sep elems.

(** [strings.Contains]: some suffix of [s] starts with [substr]. *)
Fixpoint strings_Contains (s substr : string) : bool :=
  if String.prefix substr s then true
  else match s with
       | EmptyString => false
       | String _ s' => strings_Contains s' substr
       end.

(** [fmt.Sprint] of an [int]: decimal digits, a leading dash when negative. *)
Definition fmt_Sprint (i : Z) : string := pretty i.

(** [multierr.Combine]: nil errors are dropped; no error left is nil, one
    error left is that error itself, several are gathered in one
    multi-error, the members of a multi-error among them inlined. *)
Definition multierr_flatten (e : error) : list error :=
  match e with
  | multierr_errors errs => errs
  | _ => [e]
  end.

Definition multierr_Combine (errors : list (option error)) : option error :=
  match omap id errors with
  | [] => None
  | [e] => Some e
  | es => Some (multierr_errors (concat (map multierr_flatten es)))
  end.

(** The errors one can see inside a (possibly combined) error. *)
Definition multierr_Errors (err : option error) : list error :=
  match err with
  | None => []
  | Some e => multierr_flatten e
  end.

Section ErrorString.
(** [fmt.Sprintf], of Go's standard library. *)
Variable Sprintf : string -> list fmt_arg -> string.

(** The [Error()] method. *)
Fixpoint Error (e : error) : string :=
  match e with
  | errors_New msg => msg
  | fmt_Errorf format args => Sprintf format args
  | fmt_Errorf_w format cause => Sprintf format [arg_string (Error cause)]
  | errors_Wrap cause msg => msg +:+ ": " +:+ Error cause
  | errors_Wrapf cause format args => Sprintf format args +:+ ": " +:+ Error cause
  | multierr_errors errs =>
      String.concat "; " ((fix each (l : list error) : list string :=
                             match l with
                             | [] => []
                             | x :: l' => Error x :: each l'
                             end) errs)
  end.
End ErrorString.

(** ** The types of the collaborating packages *)

(** [pkg/storage]: a resolved input volume. *)
Module storage.
(** Modelled from the spec: [StorageVolumeConnectorType] and its constant
    [StorageVolumeConnectorBind] are declared in [pkg/storage]; the spec
    speaks of the access kind "bind" and of any other resolved kind. *)
Definition StorageVolumeConnectorType := string.
Definition StorageVolumeConnectorBind : StorageVolumeConnectorType := "bind".
Record StorageVolume := {
  Type_ : StorageVolumeConnectorType;
  ReadOnly : bool;
  Source : string;
  Target : string
}.
End storage.

(** [github.com/docker/docker/api/types/mount] *)
Module mount.
Inductive type := TypeBind | TypeVolume | TypeTmpfs | TypeNamedPipe.
Record Mount := {
  Type_ : type;
  ReadOnly : bool;
  Source : string;
  Target : string
}.
End mount.

(** [github.com/docker/docker/api/types/container] *)
Module container.
Record Config := {
  Image : string;
  Tty : bool;
  Env : list string;
  Entrypoint : list string;
  Labels : gmap string string;
  WorkingDir : string
}.
Record DeviceRequest := {
  DeviceIDs : list string;
  Capabilities : list (list string)
}.
Record Resources_ := {
  Memory : Z;
  NanoCPUs : Z;
  DeviceRequests : list DeviceRequest
}.
Record HostConfig := {
  Mounts : list mount.Mount;
  Resources : Resources_
}.
(** What [ContainerWait] delivers to the [select]: a value on the error
    channel, or an exit status with its optional error message. *)
Inductive WaitOutcome :=
| errCh (err : option error)
| statusCh (StatusCode : Z) (Error_Message : option string).
End container.

(** ** Contexts *)

(** A [context.Context] by the way it was derived. *)
Inductive Context :=
| context_Background
| context_Incoming (name : string)
| context_WithTimeout (parent : Context) (timeout : Z)
| tracer_Start (parent : Context) (spanName : string)
| logger_WithContext (parent : Context) (key value : string).

(** The contexts a context was derived from, itself included: cancelling
    any of them cancels it. *)
Fixpoint context_chain (c : Context) : list Context :=
  c :: match c with
       | context_Background | context_Incoming _ => []
       | context_WithTimeout p _ | tracer_Start p _ => context_chain p
       | logger_WithContext p _ _ => context_chain p
       end.

(** The time bound a context carries, in nanoseconds from its creation. *)
Fixpoint context_timeout (c : Context) : option Z :=
  match c with
  | context_Background | context_Incoming _ => None
  | context_WithTimeout p t =>
      match context_timeout p with
      | Some t' => Some (Z.min t t')
      | None => Some t
      end
  | tracer_Start p _ => context_timeout p
  | logger_WithContext p _ _ => context_timeout p
  end.

Definition time_Minute : Z := 60 * 1000000000.

(** ** The host and the world around one invocation *)

(** Captured output streams of a container. *)
Definition Reader := string.

(** The calls that reach outside the executor, in the order made. An
    [os.Mkdir] is listed when it makes the directory: one that is refused
    leaves the host as it was. *)
Inductive Op :=
| OpGetShardStorageSpec (shard : model.JobShard)
| OpParallelPrepareStorage (specs : list model.StorageSpec)
| OpMkdir (path : string) (perm : Z)
| OpPullImage (ctx : Context) (image : string)
| OpSetupNetworkForJob (ctx : Context) (config : container.Config)
                       (hostConfig : container.HostConfig)
| OpContainerCreate (ctx : Context) (config : container.Config)
                    (hostConfig : container.HostConfig) (name : string)
| OpContainerStart (ctx : Context) (containerID : string)
| OpFollowLogs (ctx : Context) (containerID : string)
| OpContainerWait (ctx : Context) (containerID : string)
| OpWriteJobResults (resultsDir : string) (stdout stderr : Reader) (exitcode : Z)
                    (err : option error)
| OpRemoveObjectsWithLabel (ctx : Context) (labelName labelValue : string).

Inductive zerolog_Level := zerolog_DebugLevel | zerolog_ErrorLevel.

Record LogLine := {
  log_ctx : Context;
  log_level : zerolog_Level;
  log_err : option error;
  log_msg : string
}.

(** The host as one invocation sees and changes it: the directories that
    exist, with the permission bits they were made with (as asked for,
    before the process's umask); the calls made; the lines logged. *)
Record Host := {
  dirs : gmap string Z;
  ops : list Op;
  logged : list LogLine
}.

(** What the collaborators answer during one invocation. Each is a
    function of what the executor hands over, so that a world fixes the
    answers without fixing the questions. *)
Record World := {
  (* fmt.Sprintf *)
  Sprintf : string -> list fmt_arg -> string;
  (* filepath.Join of two elements *)
  filepath_Join : string -> string -> string;
  (* os.Getenv *)
  os_Getenv : string -> string;
  (* a fault of os.Mkdir other than the directory existing already *)
  os_Mkdir_fault : string -> option error;
  (* what int64(f) is for a float64 out of range *)
  int64_unrepresentable : float64 -> Z;
  (* model.JobShard.ID *)
  JobShard_ID : model.JobShard -> string;
  (* config.ShouldKeepStack *)
  config_ShouldKeepStack : bool;
  (* jobutils.GetShardStorageSpec *)
  jobutils_GetShardStorageSpec : model.JobShard -> error + list model.StorageSpec;
  (* storage.ParallelPrepareStorage; the map it returns is listed in the
     order in which the range statement of this run visits it *)
  storage_ParallelPrepareStorage :
    list model.StorageSpec -> error + list (model.StorageSpec * storage.StorageVolume);
  (* model.JSONMarshalWithMax *)
  model_JSONMarshalWithMax : model.Spec_ -> error + string;
  (* capacity.ParseResourceUsageConfig *)
  capacity_ParseResourceUsageConfig : model.ResourceUsageConfig -> model.ResourceUsageData;
  (* Executor.setupNetworkForJob, of another file of the package: it
     receives both configurations by pointer and may write to them *)
  Executor_setupNetworkForJob :
    model.JobShard -> container.Config -> container.HostConfig ->
    option error * container.Config * container.HostConfig;
  (* the Docker daemon *)
  docker_PullImage : string -> option error;
  Client_ContainerCreate :
    container.Config -> container.HostConfig -> string -> error + string;
  Client_ContainerStart : string -> option error;
  docker_FollowLogs : string -> Reader * Reader * option error;
  Client_ContainerWait : string -> container.WaitOutcome;
  docker_RemoveObjectsWithLabel : string -> string -> option error
}.

(** ** [pkg/executor]: the result of a shard *)

(** Modelled from the spec: [model.RunCommandResult], [executor.FailResult]
    and [executor.WriteJobResults] are declared in [pkg/model] and
    [pkg/executor], outside the two packages embedded here. The spec: a
    RunResult is
    {stdout capture, stderr capture, exitCode, combinedError}; every
    failure before "Running" is returned as a complete shard failure
    result; the shard's result always reports an exit code and the
    combined error, if any; the caller receives one RunResult or one
    failure per shard invocation. *)
Record RunResult := {
  stdout : Reader;
  stderr : Reader;
  exitCode : Z;
  combinedError : option error
}.

Inductive ShardResult :=
| Failure (err : error)
| Completed (result : RunResult).

Definition executor_FailResult (err : error) : ShardResult := Failure err.

Definition executor_WriteJobResults (resultsDir : string) (stdout stderr : Reader)
    (exitcode : Z) (err : option error) (h : Host) : ShardResult * Host :=
  (Completed {| stdout := stdout; stderr := stderr;
                exitCode := exitcode; combinedError := err |},
   {| dirs := dirs h;
      ops := ops h ++ [OpWriteJobResults resultsDir stdout stderr exitcode err];
      logged := logged h |}).

(** ** Go function bodies: early [return] and [defer]

    A body runs in a frame: the host and the stack of deferred calls.
    [inl r] means the function has executed [return r]. *)
Record Frame := {
  host : Host;
  defers : list (Host -> Host)
}.

Definition Run (R A : Type) : Type := Frame -> (R + A) * Frame.

Global Instance Run_ret {R} : MRet (Run R) := λ A (a : A) fr, (inr a, fr).

Global Instance Run_bind {R} : MBind (Run R) := λ A B (k : A -> Run R B) (m : Run R A) fr,
  match m fr with
  | (inl r, fr') => (inl r, fr')
  | (inr a, fr') => k a fr'
  end.

(** [return r] *)
Definition Return {R A} (r : R) : Run R A := λ fr, (inl r, fr).

(** [defer f(...)]: the call is pushed, to run when the function returns. *)
Definition defer {R} (f : Host -> Host) : Run R unit := λ fr,
  (inr (), {| host := host fr; defers := f :: defers fr |}).

(** A statement that only acts on the host. *)
Definition liftH {R A} (f : Host -> A * Host) : Run R A := λ fr,
  let '(a, h) := f (host fr) in (inr a, {| host := h; defers := defers fr |}).

(** A call to a collaborator: it is recorded, and answers [answer]. *)
Definition call {A} (o : Op) (answer : A) (h : Host) : A * Host :=
  (answer, {| dirs := dirs h; ops := ops h ++ [o]; logged := logged h |}).

(** Running a function: its body, then the deferred calls, last in first
    out. *)
Definition go_func {R} (body : Run R R) (h : Host) : R * Host :=
  let '(r, fr) := body {| host := h; defers := [] |} in
  (match r with inl r => r | inr r => r end,
   fold_left (λ h f, f h) (defers fr) (host fr)).

(** [if err != nil { return executor.FailResult(err) }] *)
Definition orFail {A} (r : error + A) : Run ShardResult A :=
  match r with
  | inl err => Return (executor_FailResult err)
  | inr a => mret a
  end.

(** [os.Mkdir]: fails when the path exists already or on a fault of the
    host; otherwise the directory is there afterwards. *)
Definition os_Mkdir (w : World) (path : string) (perm : Z) (h : Host) : option error * Host :=
  match dirs h !! path with
  | Some _ => (Some (errors_New ("mkdir " +:+ path +:+ ": file exists")), h)
  | None =>
      match os_Mkdir_fault w path with
      | Some err => (Some err, h)
      | None => (None, {| dirs := <[path := perm]> (dirs h);
                          ops := ops h ++ [OpMkdir path perm];
                          logged := logged h |})
      end
  end.

(** Modelled from the spec: the permission constants of
    [pkg/storage/util], outside the two packages embedded here. The spec:
    the output
    directory gets owner read/write/execute and world read/execute
    permissions; by their names [OS_ALL_R] and [OS_ALL_X] are the read and
    execute bits of owner, group and others, [OS_USER_W] the owner's
    write bit. *)
Module util.
Definition OS_READ : Z := 4.
Definition OS_WRITE : Z := 2.
Definition OS_EX : Z := 1.
Definition OS_USER_SHIFT : Z := 6.
Definition OS_GROUP_SHIFT : Z := 3.
Definition OS_OTH_SHIFT : Z := 0.
Definition OS_ALL_R : Z :=
  Z.lor (Z.shiftl OS_READ OS_USER_SHIFT)
        (Z.lor (Z.shiftl OS_READ OS_GROUP_SHIFT) (Z.shiftl OS_READ OS_OTH_SHIFT)).
Definition OS_ALL_X : Z :=
  Z.lor (Z.shiftl OS_EX OS_USER_SHIFT)
        (Z.lor (Z.shiftl OS_EX OS_GROUP_SHIFT) (Z.shiftl OS_EX OS_OTH_SHIFT)).
Definition OS_USER_W : Z := Z.shiftl OS_WRITE OS_USER_SHIFT.
End util.

(** ** [pkg/executor/docker] *)
Module docker.

Definition NanoCPUCoefficient : Z := 1000000000.

Definition labelExecutorName : string := "bacalhau-executor".
Definition labelJobName : string := "bacalhau-jobID".

(** The storage provider and the Docker client of the struct are reached
    through the [World]. *)
Record Executor := { ID : string }.

Definition dockerObjectName (e : Executor) (shard : model.JobShard)
    (parts : list string) : string :=
  let strs := ["bacalhau"; ID e; model.ID (model.Metadata (model.Job shard));
               fmt_Sprint (model.Index shard)] in
  let strs := strs ++ parts in
  strings_Join strs "-".

Definition jobContainerName (e : Executor) (shard : model.JobShard) : string :=
  dockerObjectName e shard ["executor"].

Definition labelJobValue (w : World) (e : Executor) (shard : model.JobShard) : string :=
  ID e +:+ JobShard_ID w shard.

Definition jobContainerLabels (w : World) (e : Executor) (shard : model.JobShard)
    : gmap string string :=
  {[ labelExecutorName := ID e; labelJobName := labelJobValue w e shard ]}.

Definition CancelShard (w : World) (e : Executor) (ctx : Context)
    (shard : model.JobShard) (h : Host) : option error * Host :=
  call (OpRemoveObjectsWithLabel ctx labelJobName (labelJobValue w e shard))
       (docker_RemoveObjectsWithLabel w labelJobName (labelJobValue w e shard)) h.

(** The line both cleanups log: at debug level when the removal went
    well, at error level with the error otherwise. *)
Definition log_cleanup (ctx : Context) (err : option error) (msg : string)
    (h : Host) : Host :=
  let logLevel := (λ isNil : bool, if isNil then zerolog_DebugLevel else zerolog_ErrorLevel)
                    (bool_decide (err = None)) in
  {| dirs := dirs h; ops := ops h;
     logged := logged h ++ [ {| log_ctx := ctx; log_level := logLevel;
                                log_err := err; log_msg := msg |} ] |}.

Definition cleanupJob (w : World) (e : Executor) (ctx : Context)
    (shard : model.JobShard) (h : Host) : Host :=
  if config_ShouldKeepStack w then h
  else
    (* Use a separate context in case the current one has already been canceled *)
    let separateCtx := context_WithTimeout context_Background (1 * time_Minute) in
    let '(err, h) :=
      call (OpRemoveObjectsWithLabel separateCtx labelJobName (labelJobValue w e shard))
           (docker_RemoveObjectsWithLabel w labelJobName (labelJobValue w e shard)) h in
    log_cleanup ctx err "Cleaned up job Docker resources" h.

Definition cleanupAll (w : World) (e : Executor) (ctx : Context) (h : Host) : Host :=
  if config_ShouldKeepStack w then h
  else
    let safeCtx := context_Background in
    let '(err, h) :=
      call (OpRemoveObjectsWithLabel safeCtx labelExecutorName (ID e))
           (docker_RemoveObjectsWithLabel w labelExecutorName (ID e)) h in
    log_cleanup ctx err "Cleaned up all Docker resources" h.

(** [span.End()]: the tracer is not part of the host. *)
Definition span_End (h : Host) : Host := h.

(** The loop over the resolved input volumes (the [range] over
    [inputVolumes]): the local [mounts] as the loop leaves it, and the
    error with which it leaves the function, if it does. *)
Fixpoint RunShard_inputVolumes
    (inputVolumes : list (model.StorageSpec * storage.StorageVolume))
    (mounts : list mount.Mount) : list mount.Mount * option error :=
  match inputVolumes with
  | [] => (mounts, None)
  | (spec, volumeMount) :: rest =>
      if decide (storage.Type_ volumeMount = storage.StorageVolumeConnectorBind) then
        RunShard_inputVolumes rest
          (mounts ++ [ {| mount.Type_ := mount.TypeBind;
                          (* this is an input volume so is read only *)
                          mount.ReadOnly := true;
                          mount.Source := storage.Source volumeMount;
                          mount.Target := storage.Target volumeMount |} ])
      else
        (mounts, Some (fmt_Errorf "unknown storage volume type: %s"
                                  [arg_string (storage.Type_ volumeMount)]))
  end.

(** The loop over [shard.Job.Spec.Outputs], in the same form. *)
Fixpoint RunShard_outputs (w : World) (jobResultsDir : string)
    (outputs : list model.StorageSpec) (mounts : list mount.Mount) (h : Host)
    : (list mount.Mount * option error) * Host :=
  match outputs with
  | [] => ((mounts, None), h)
  | output :: rest =>
      if decide (model.Name output = "") then
        ((mounts, Some (fmt_Errorf "output volume has no name: %+v" [arg_StorageSpec output])), h)
      else if decide (model.Path output = "") then
        ((mounts, Some (fmt_Errorf "output volume has no path: %+v" [arg_StorageSpec output])), h)
      else
        let srcd := filepath_Join w jobResultsDir (model.Name output) in
        let '(err, h) :=
          os_Mkdir w srcd (Z.lor (Z.lor util.OS_ALL_R util.OS_ALL_X) util.OS_USER_W) h in
        match err with
        | Some err => ((mounts, Some err), h)
        | None =>
            (* create a mount so the output data does not need to be copied
               back to the host *)
            RunShard_outputs w jobResultsDir rest
              (mounts ++ [ {| mount.Type_ := mount.TypeBind;
                              (* this is an output volume so can be written to *)
                              mount.ReadOnly := false;
                              (* a named folder in the job results folder *)
                              mount.Source := srcd;
                              (* the path from inside the container *)
                              mount.Target := model.Path output |} ]) h
        end
  end.

(** [if err != nil { return executor.FailResult(err) }] on a plain error. *)
Definition failOn (err : option error) : Run ShardResult unit :=
  match err with
  | Some err => Return (executor_FailResult err)
  | None => mret ()
  end.

Definition RunShard (w : World) (e : Executor) (ctx : Context)
    (shard : model.JobShard) (jobResultsDir : string) : Host -> ShardResult * Host :=
  go_func (
    let ctx := tracer_Start ctx "pkg/executor/docker.RunShard" in
    _ ← defer span_End;
    _ ← defer (cleanupJob w e ctx shard);

    shardStorageSpec ←
      liftH (call (OpGetShardStorageSpec shard) (jobutils_GetShardStorageSpec w shard))
      ≫= orFail;

    let inputStorageSpecs : list model.StorageSpec := [] in
    let inputStorageSpecs := inputStorageSpecs ++ model.Contexts (model.Spec (model.Job shard)) in
    let inputStorageSpecs := inputStorageSpecs ++ shardStorageSpec in

    inputVolumes ←
      liftH (call (OpParallelPrepareStorage inputStorageSpecs)
                  (storage_ParallelPrepareStorage w inputStorageSpecs))
      ≫= orFail;

    (* the actual mounts we will give to the container *)
    let '(mounts, err) := RunShard_inputVolumes inputVolumes [] in
    _ ← failOn err;

    '(mounts, err) ←
      liftH (RunShard_outputs w jobResultsDir
               (model.Outputs (model.Spec (model.Job shard))) mounts);
    _ ← failOn err;

    let image := model.Image (model.Docker (model.Spec (model.Job shard))) in
    _ ← (if decide (os_Getenv w "SKIP_IMAGE_PULL" = "") then
           err ← liftH (call (OpPullImage ctx image) (docker_PullImage w image));
           match err with
           | Some err =>
               Return (executor_FailResult
                         (errors_Wrapf err
                            "Could not pull image %q - could be due to repo/image not existing,
 or registry needing authorization" [arg_string image]))
           | None => mret ()
           end
         else mret ());

    (* json the job spec and pass it into all containers *)
    jsonJobSpec ← orFail (model_JSONMarshalWithMax w (model.Spec (model.Job shard)));

    let useEnv :=
      (model.EnvironmentVariables (model.Docker (model.Spec (model.Job shard)))
         ++ ["BACALHAU_JOB_SPEC=" +:+ jsonJobSpec]) in

    let containerConfig :=
      {| container.Image := image;
         container.Tty := false;
         container.Env := useEnv;
         container.Entrypoint := model.Entrypoint (model.Docker (model.Spec (model.Job shard)));
         container.Labels := jobContainerLabels w e shard;
         container.WorkingDir :=
           model.WorkingDirectory (model.Docker (model.Spec (model.Job shard))) |} in

    let resourceRequirements :=
      capacity_ParseResourceUsageConfig w (model.Resources (model.Spec (model.Job shard))) in

    (* Create GPU request if the job requests it *)
    let deviceRequests : list container.DeviceRequest := [] in
    let deviceRequests :=
      if bool_decide (model.GPU resourceRequirements > 0) then
        deviceRequests ++ [ {| container.DeviceIDs := ["0"];
                               container.Capabilities := [["gpu"]] |} ]
      else deviceRequests in

    let hostConfig :=
      {| container.Mounts := mounts;
         container.Resources :=
           {| container.Memory := int64_wrap (model.Memory resourceRequirements);
              container.NanoCPUs :=
                float64_to_int64 (int64_unrepresentable w)
                  (float64_mul (model.CPU resourceRequirements)
                               (float64_of_const NanoCPUCoefficient));
              container.DeviceRequests := deviceRequests |} |} in

    (* Create a network if the job requests it *)
    '(err, containerConfig, hostConfig) ←
      liftH (call (OpSetupNetworkForJob ctx containerConfig hostConfig)
                  (Executor_setupNetworkForJob w shard containerConfig hostConfig));
    _ ← failOn err;

    jobContainer ←
      liftH (call (OpContainerCreate ctx containerConfig hostConfig (jobContainerName e shard))
                  (Client_ContainerCreate w containerConfig hostConfig
                                          (jobContainerName e shard)));
    match jobContainer with
    | inl err => Return (executor_FailResult (errors_Wrap err "failed to create container"))
    | inr jobContainer_ID =>

    let ctx := logger_WithContext ctx "Container" jobContainer_ID in

    containerStartError ←
      liftH (call (OpContainerStart ctx jobContainer_ID)
                  (Client_ContainerStart w jobContainer_ID));
    match containerStartError with
    | Some containerStartError =>
        (* Special error to alert people about bad executable *)
        let internalContainerStartErrorMsg := "failed to start container" in
        let internalContainerStartErrorMsg :=
          if strings_Contains (Error (Sprintf w) containerStartError)
                              "executable file not found"
          then "Executable file not found"
          else internalContainerStartErrorMsg in
        let internalContainerStartError :=
          errors_Wrap containerStartError internalContainerStartErrorMsg in
        Return (executor_FailResult internalContainerStartError)
    | None =>

    '(stdoutPipe, stderrPipe, logsErr) ←
      liftH (call (OpFollowLogs ctx jobContainer_ID) (docker_FollowLogs w jobContainer_ID));

    (* the idea here is even if the container errors we want to capture
       stdout, stderr and feed it back to the user *)
    outcome ←
      liftH (call (OpContainerWait ctx jobContainer_ID)
                  (Client_ContainerWait w jobContainer_ID));
    let '(containerError, containerExitStatusCode) :=
      match outcome with
      | container.errCh err => (err, 0)
      | container.statusCh StatusCode Error_Message =>
          (match Error_Message with
           | Some Message => Some (errors_New Message)
           | None => None
           end, StatusCode)
      end in

    liftH (executor_WriteJobResults jobResultsDir stdoutPipe stderrPipe
             (int_of_int64 containerExitStatusCode)
             (multierr_Combine [containerError; logsErr]))
    end end).

End docker.

(** ** [pkg/requester/publicapi] *)
Module publicapi.
Section VerifySubmitRequest.

(** [model.JobCreatePayload] with its [ClientID] field, and the three
    collaborators of [pkg/system] and [pkg/model]; [[]byte] is a string. *)
Variable JobCreatePayload : Type.
Variable ClientID : JobCreatePayload -> string.
Variable system_PublicKeyMatchesID : string -> string -> bool * option error.
Variable model_JSONMarshalWithMax : JobCreatePayload -> error + string.
Variable system_Verify : string -> string -> string -> option error.

Record submitRequest := {
  JobCreatePayload_ : JobCreatePayload;
  ClientSignature : string;
  ClientPublicKey : string
}.

Definition verifySubmitRequest (req : submitRequest) : option error :=
  if decide (ClientID (JobCreatePayload_ req) = "") then
    Some (errors_New "job create payload must contain a client ID")
  else if decide (ClientSignature req = "") then
    Some (errors_New "client's signature is required")
  else if decide (ClientPublicKey req = "") then
    Some (errors_New "client's public key is required")
  else
    (* Check that the client's public key matches the client ID: *)
    let '(ok, err) :=
      system_PublicKeyMatchesID (ClientPublicKey req) (ClientID (JobCreatePayload_ req)) in
    match err with
    | Some err => Some (fmt_Errorf_w "error verifying client ID: %w" err)
    | None =>
        if negb ok then
          Some (errors_New "client's public key does not match client ID")
        else
          (* Check that the signature is valid: *)
          match model_JSONMarshalWithMax (JobCreatePayload_ req) with
          | inl err => Some (fmt_Errorf_w "error marshaling job data: %w" err)
          | inr jsonData =>
              match system_Verify jsonData (ClientSignature req) (ClientPublicKey req) with
              | Some err => Some (fmt_Errorf_w "client's signature is invalid: %w" err)
              | None => None
              end
          end
    end.

(** The conditions under which a request is let through. *)
Definition request_in_order (req : submitRequest) : Prop :=
  ClientID (JobCreatePayload_ req) ≠ "" ∧
  ClientSignature req ≠ "" ∧
  ClientPublicKey req ≠ "" ∧
  system_PublicKeyMatchesID (ClientPublicKey req) (ClientID (JobCreatePayload_ req))
    = (true, None) ∧
  ∃ jsonData, model_JSONMarshalWithMax (JobCreatePayload_ req) = inr jsonData ∧
              system_Verify jsonData (ClientSignature req) (ClientPublicKey req) = None.

(** The first check a request fails, in the order of the checks, with the
    error reported for it. *)
Inductive first_violation (req : submitRequest) : error -> Prop :=
| no_client_id :
    ClientID (JobCreatePayload_ req) = "" ->
    first_violation req (errors_New "job create payload must contain a client ID")
| no_signature :
    ClientID (JobCreatePayload_ req) ≠ "" ->
    ClientSignature req = "" ->
    first_violation req (errors_New "client's signature is required")
| no_public_key :
    ClientID (JobCreatePayload_ req) ≠ "" ->
    ClientSignature req ≠ "" ->
    ClientPublicKey req = "" ->
    first_violation req (errors_New "client's public key is required")
| key_check_failed ok err :
    ClientID (JobCreatePayload_ req) ≠ "" ->
    ClientSignature req ≠ "" ->
    ClientPublicKey req ≠ "" ->
    system_PublicKeyMatchesID (ClientPublicKey req) (ClientID (JobCreatePayload_ req))
      = (ok, Some err) ->
    first_violation req (fmt_Errorf_w "error verifying client ID: %w" err)
| key_mismatch :
    ClientID (JobCreatePayload_ req) ≠ "" ->
    ClientSignature req ≠ "" ->
    ClientPublicKey req ≠ "" ->
    system_PublicKeyMatchesID (ClientPublicKey req) (ClientID (JobCreatePayload_ req))
      = (false, None) ->
    first_violation req (errors_New "client's public key does not match client ID")
| marshal_failed err :
    ClientID (JobCreatePayload_ req) ≠ "" ->
    ClientSignature req ≠ "" ->
    ClientPublicKey req ≠ "" ->
    system_PublicKeyMatchesID (ClientPublicKey req) (ClientID (JobCreatePayload_ req))
      = (true, None) ->
    model_JSONMarshalWithMax (JobCreatePayload_ req) = inl err ->
    first_violation req (fmt_Errorf_w "error marshaling job data: %w" err)
| signature_invalid jsonData err :
    ClientID (JobCreatePayload_ req) ≠ "" ->
    ClientSignature req ≠ "" ->
    ClientPublicKey req ≠ "" ->
    system_PublicKeyMatchesID (ClientPublicKey req) (ClientID (JobCreatePayload_ req))
      = (true, None) ->
    model_JSONMarshalWithMax (JobCreatePayload_ req) = inr jsonData ->
    system_Verify jsonData (ClientSignature req) (ClientPublicKey req) = Some err ->
    first_violation req (fmt_Errorf_w "client's signature is invalid: %w" err).

(** The seven errors, for any causes wrapped in them. *)
Definition verify_errors (e1 e2 e3 : error) : list error :=
  [ errors_New "job create payload must contain a client ID";
    errors_New "client's signature is required";
    errors_New "client's public key is required";
    fmt_Errorf_w "error verifying client ID: %w" e1;
    errors_New "client's public key does not match client ID";
    fmt_Errorf_w "error marshaling job data: %w" e2;
    fmt_Errorf_w "client's signature is invalid: %w" e3 ].

End VerifySubmitRequest.
End publicapi.

(** ** The vocabulary of the properties *)

(** A host at the start of an invocation: some directories, nothing
    called or logged yet. *)
Definition fresh (d : gmap string Z) : Host := {| dirs := d; ops := []; logged := [] |}.

Section Invocation.
Variables (w : World) (e : docker.Executor) (ctx : Context)
          (shard : model.JobShard) (jobResultsDir : string) (d : gmap string Z).

(** One invocation of [RunShard]: what it returns, the calls it makes, the
    lines it logs, the directories it leaves. *)
Definition invocation : ShardResult * Host :=
  docker.RunShard w e ctx shard jobResultsDir (fresh d).
Definition result : ShardResult := fst invocation.
Definition trace : list Op := ops (snd invocation).
Definition log_lines : list LogLine := logged (snd invocation).
Definition dirs_after : gmap string Z := dirs (snd invocation).

(** The context [RunShard] works in: the caller's, with the span. *)
Definition span_ctx : Context := tracer_Start ctx "pkg/executor/docker.RunShard".

(** The context of the cleanup's removal. *)
Definition separateCtx : Context :=
  context_WithTimeout context_Background (1 * time_Minute).

(** The calls of the shard-scoped cleanup. *)
Definition cleanup_ops : list Op :=
  if config_ShouldKeepStack w then []
  else [OpRemoveObjectsWithLabel separateCtx docker.labelJobName
          (docker.labelJobValue w e shard)].

(** The lines of the shard-scoped cleanup. *)
Definition cleanup_log : list LogLine :=
  if config_ShouldKeepStack w then []
  else
    let err := docker_RemoveObjectsWithLabel w docker.labelJobName
                 (docker.labelJobValue w e shard) in
    [ {| log_ctx := span_ctx;
         log_level := match err with
                      | None => zerolog_DebugLevel
                      | Some _ => zerolog_ErrorLevel
                      end;
         log_err := err;
         log_msg := "Cleaned up job Docker resources" |} ].

(** The storage specs handed to the storage preparer. *)
Definition input_specs (shardStorageSpec : list model.StorageSpec) : list model.StorageSpec :=
  model.Contexts (model.Spec (model.Job shard)) ++ shardStorageSpec.

Definition outputs : list model.StorageSpec :=
  model.Outputs (model.Spec (model.Job shard)).

(** The mount entry expected for a resolved input volume. *)
Definition inputMount (v : model.StorageSpec * storage.StorageVolume) : mount.Mount :=
  {| mount.Type_ := mount.TypeBind; mount.ReadOnly := true;
     mount.Source := storage.Source (snd v); mount.Target := storage.Target (snd v) |}.

Definition is_bind (v : model.StorageSpec * storage.StorageVolume) : Prop :=
  storage.Type_ (snd v) = storage.StorageVolumeConnectorBind.

(** The host directory of an output, its permission bits (rwxr-xr-x), and
    the mount entry expected for it. *)
Definition output_dir (o : model.StorageSpec) : string :=
  filepath_Join w jobResultsDir (model.Name o).

Definition output_perm : Z := 493.

Definition outputMount (o : model.StorageSpec) : mount.Mount :=
  {| mount.Type_ := mount.TypeBind; mount.ReadOnly := false;
     mount.Source := output_dir o; mount.Target := model.Path o |}.

Definition mkdir_op (o : model.StorageSpec) : Op := OpMkdir (output_dir o) output_perm.

Definition valid_output (o : model.StorageSpec) : Prop :=
  model.Name o ≠ "" ∧ model.Path o ≠ "".

(** The directories once those of the outputs [done] are made. *)
Definition made_dirs (done : list model.StorageSpec) (d0 : gmap string Z) : gmap string Z :=
  foldl (λ d0 o, <[output_dir o := output_perm]> d0) d0 done.

(** The directories of the outputs [done] can all be made, one after the
    other, starting from [d0]. *)
Fixpoint dirs_makeable (done : list model.StorageSpec) (d0 : gmap string Z) : Prop :=
  match done with
  | [] => True
  | o :: rest =>
      d0 !! output_dir o = None ∧ os_Mkdir_fault w (output_dir o) = None ∧
      dirs_makeable rest (<[output_dir o := output_perm]> d0)
  end.

(** Why the build stops at output [o], the directories being [d0], and
    with which error. *)
Inductive output_abort (d0 : gmap string Z) (o : model.StorageSpec) : error -> Prop :=
| abort_no_name :
    model.Name o = "" ->
    output_abort d0 o (fmt_Errorf "output volume has no name: %+v" [arg_StorageSpec o])
| abort_no_path :
    model.Name o ≠ "" -> model.Path o = "" ->
    output_abort d0 o (fmt_Errorf "output volume has no path: %+v" [arg_StorageSpec o])
| abort_dir_exists perm :
    valid_output o -> d0 !! output_dir o = Some perm ->
    output_abort d0 o (errors_New ("mkdir " +:+ output_dir o +:+ ": file exists"))
| abort_mkdir_fault err :
    valid_output o -> d0 !! output_dir o = None ->
    os_Mkdir_fault w (output_dir o) = Some err ->
    output_abort d0 o err.

(** A sandbox is created, a mount list is handed on: by the calls made. *)
Definition creates_sandbox (t : list Op) : Prop :=
  ∃ c config hostConfig name, OpContainerCreate c config hostConfig name ∈ t.

Definition hands_on_mounts (t : list Op) : Prop :=
  (∃ c config hostConfig, OpSetupNetworkForJob c config hostConfig ∈ t) ∨ creates_sandbox t.

Definition is_removal (o : Op) : Prop :=
  match o with OpRemoveObjectsWithLabel _ _ _ => True | _ => False end.

(** *** The courses an invocation can take *)

Definition image : string := model.Image (model.Docker (model.Spec (model.Job shard))).

(** The configurations as [RunShard] builds them, from the serialized job
    specification and the mount list. *)
Definition containerConfig_built (jsonJobSpec : string) : container.Config :=
  {| container.Image := image;
     container.Tty := false;
     container.Env :=
       model.EnvironmentVariables (model.Docker (model.Spec (model.Job shard)))
         ++ ["BACALHAU_JOB_SPEC=" +:+ jsonJobSpec];
     container.Entrypoint := model.Entrypoint (model.Docker (model.Spec (model.Job shard)));
     container.Labels := docker.jobContainerLabels w e shard;
     container.WorkingDir :=
       model.WorkingDirectory (model.Docker (model.Spec (model.Job shard))) |}.

Definition resourceRequirements : model.ResourceUsageData :=
  capacity_ParseResourceUsageConfig w (model.Resources (model.Spec (model.Job shard))).

Definition hostConfig_built (mounts : list mount.Mount) : container.HostConfig :=
  {| container.Mounts := mounts;
     container.Resources :=
       {| container.Memory := int64_wrap (model.Memory resourceRequirements);
          container.NanoCPUs :=
            float64_to_int64 (int64_unrepresentable w)
              (float64_mul (model.CPU resourceRequirements)
                           (float64_of_const docker.NanoCPUCoefficient));
          container.DeviceRequests :=
            if bool_decide (model.GPU resourceRequirements > 0) then
              [ {| container.DeviceIDs := ["0"]; container.Capabilities := [["gpu"]] |} ]
            else [] |} |}.

Definition built_mounts (vols : list (model.StorageSpec * storage.StorageVolume))
    : list mount.Mount :=
  map inputMount vols ++ map outputMount outputs.

(** The context after the container is created. *)
Definition container_ctx (containerID : string) : Context :=
  logger_WithContext span_ctx "Container" containerID.

(** How far an invocation got. *)
Definition resolved (sss : list model.StorageSpec)
    (vols : list (model.StorageSpec * storage.StorageVolume)) : Prop :=
  jobutils_GetShardStorageSpec w shard = inr sss ∧
  storage_ParallelPrepareStorage w (input_specs sss) = inr vols.

Definition built sss vols : Prop :=
  resolved sss vols ∧ Forall is_bind vols ∧
  Forall valid_output outputs ∧ dirs_makeable outputs d.

Definition pulled sss vols : Prop :=
  built sss vols ∧
  (os_Getenv w "SKIP_IMAGE_PULL" = "" -> docker_PullImage w image = None).

Definition configured sss vols (jsonJobSpec : string)
    (config : container.Config) (hostConfig : container.HostConfig) : Prop :=
  pulled sss vols ∧
  model_JSONMarshalWithMax w (model.Spec (model.Job shard)) = inr jsonJobSpec ∧
  Executor_setupNetworkForJob w shard (containerConfig_built jsonJobSpec)
    (hostConfig_built (built_mounts vols)) = (None, config, hostConfig).

Definition created sss vols jsonJobSpec config hostConfig (containerID : string) : Prop :=
  configured sss vols jsonJobSpec config hostConfig ∧
  Client_ContainerCreate w config hostConfig (docker.jobContainerName e shard)
    = inr containerID.

(** The calls made up to each point. *)
Definition storage_ops sss : list Op :=
  [OpGetShardStorageSpec shard; OpParallelPrepareStorage (input_specs sss)].

Definition build_ops sss : list Op := storage_ops sss ++ map mkdir_op outputs.

Definition pull_ops : list Op :=
  if decide (os_Getenv w "SKIP_IMAGE_PULL" = "") then [OpPullImage span_ctx image] else [].

Definition config_ops sss vols jsonJobSpec : list Op :=
  build_ops sss ++ pull_ops ++
  [OpSetupNetworkForJob span_ctx (containerConfig_built jsonJobSpec)
     (hostConfig_built (built_mounts vols))].

Definition create_ops sss vols jsonJobSpec config hostConfig : list Op :=
  config_ops sss vols jsonJobSpec ++
  [OpContainerCreate span_ctx config hostConfig (docker.jobContainerName e shard)].

Definition start_ops sss vols jsonJobSpec config hostConfig containerID : list Op :=
  create_ops sss vols jsonJobSpec config hostConfig ++
  [OpContainerStart (container_ctx containerID) containerID].

(** The container error and the exit code read off what the wait delivered. *)
Definition containerError_of (outcome : container.WaitOutcome) : option error :=
  match outcome with
  | container.errCh err => err
  | container.statusCh _ (Some Message) => Some (errors_New Message)
  | container.statusCh _ None => None
  end.

Definition exitCode_of (outcome : container.WaitOutcome) : Z :=
  match outcome with
  | container.errCh _ => 0
  | container.statusCh StatusCode _ => StatusCode
  end.

(** The message a start failure is wrapped with. *)
Definition start_failure_message (err : error) : string :=
  if strings_Contains (Error (Sprintf w) err) "executable file not found"
  then "Executable file not found" else "failed to start container".

(** Every course of an invocation: its result, its calls before the
    cleanup, the directories it leaves. *)
Inductive run_shape : ShardResult -> list Op -> gmap string Z -> Prop :=
| shape_no_storage_spec err :
    jobutils_GetShardStorageSpec w shard = inl err ->
    run_shape (Failure err) [OpGetShardStorageSpec shard] d
| shape_not_prepared sss err :
    jobutils_GetShardStorageSpec w shard = inr sss ->
    storage_ParallelPrepareStorage w (input_specs sss) = inl err ->
    run_shape (Failure err) (storage_ops sss) d
| shape_unknown_volume sss vols pre v post :
    resolved sss vols ->
    vols = pre ++ v :: post -> Forall is_bind pre -> ¬ is_bind v ->
    run_shape
      (Failure (fmt_Errorf "unknown storage volume type: %s"
                           [arg_string (storage.Type_ (snd v))]))
      (storage_ops sss) d
| shape_output_abort sss vols done o rest err :
    resolved sss vols -> Forall is_bind vols ->
    outputs = done ++ o :: rest ->
    Forall valid_output done -> dirs_makeable done d ->
    output_abort (made_dirs done d) o err ->
    run_shape (Failure err) (storage_ops sss ++ map mkdir_op done) (made_dirs done d)
| shape_pull_failed sss vols err :
    built sss vols ->
    os_Getenv w "SKIP_IMAGE_PULL" = "" -> docker_PullImage w image = Some err ->
    run_shape
      (Failure (errors_Wrapf err
                  "Could not pull image %q - could be due to repo/image not existing,
 or registry needing authorization" [arg_string image]))
      (build_ops sss ++ [OpPullImage span_ctx image]) (made_dirs outputs d)
| shape_marshal_failed sss vols err :
    pulled sss vols ->
    model_JSONMarshalWithMax w (model.Spec (model.Job shard)) = inl err ->
    run_shape (Failure err) (build_ops sss ++ pull_ops) (made_dirs outputs d)
| shape_network_failed sss vols jsonJobSpec err config hostConfig :
    pulled sss vols ->
    model_JSONMarshalWithMax w (model.Spec (model.Job shard)) = inr jsonJobSpec ->
    Executor_setupNetworkForJob w shard (containerConfig_built jsonJobSpec)
      (hostConfig_built (built_mounts vols)) = (Some err, config, hostConfig) ->
    run_shape (Failure err) (config_ops sss vols jsonJobSpec) (made_dirs outputs d)
| shape_create_failed sss vols jsonJobSpec config hostConfig err :
    configured sss vols jsonJobSpec config hostConfig ->
    Client_ContainerCreate w config hostConfig (docker.jobContainerName e shard) = inl err ->
    run_shape (Failure (errors_Wrap err "failed to create container"))
      (create_ops sss vols jsonJobSpec config hostConfig) (made_dirs outputs d)
| shape_start_failed sss vols jsonJobSpec config hostConfig containerID err :
    created sss vols jsonJobSpec config hostConfig containerID ->
    Client_ContainerStart w containerID = Some err ->
    run_shape (Failure (errors_Wrap err (start_failure_message err)))
      (start_ops sss vols jsonJobSpec config hostConfig containerID)
      (made_dirs outputs d)
| shape_completed sss vols jsonJobSpec config hostConfig containerID :
    created sss vols jsonJobSpec config hostConfig containerID ->
    Client_ContainerStart w containerID = None ->
    run_shape
      (Completed
         {| stdout := (docker_FollowLogs w containerID).1.1;
            stderr := (docker_FollowLogs w containerID).1.2;
            exitCode := exitCode_of (Client_ContainerWait w containerID);
            combinedError :=
              multierr_Combine [containerError_of (Client_ContainerWait w containerID);
                                (docker_FollowLogs w containerID).2] |})
      (start_ops sss vols jsonJobSpec config hostConfig containerID ++
       [OpFollowLogs (container_ctx containerID) containerID;
        OpContainerWait (container_ctx containerID) containerID;
        OpWriteJobResults jobResultsDir
          (docker_FollowLogs w containerID).1.1 (docker_FollowLogs w containerID).1.2
          (exitCode_of (Client_ContainerWait w containerID))
          (multierr_Combine [containerError_of (Client_ContainerWait w containerID);
                             (docker_FollowLogs w containerID).2])])
      (made_dirs outputs d).

End Invocation.

(** The directories made, in the order of their making. *)
Fixpoint dirs_made (t : list Op) : list (string * Z) :=
  match t with
  | [] => []
  | OpMkdir path perm :: t' => (path, perm) :: dirs_made t'
  | _ :: t' => dirs_made t'
  end.

(** [sub] occurs in [s]. *)
Definition substring (sub s : string) : Prop :=
  ∃ before after, s = before +:+ sub +:+ after.

(** A world that differs in what the removal by label answers. *)
Definition with_removal (w : World) (answer : string -> string -> option error) : World :=
  {| Sprintf := Sprintf w;
     filepath_Join := filepath_Join w;
     os_Getenv := os_Getenv w;
     os_Mkdir_fault := os_Mkdir_fault w;
     int64_unrepresentable := int64_unrepresentable w;
     JobShard_ID := JobShard_ID w;
     config_ShouldKeepStack := config_ShouldKeepStack w;
     jobutils_GetShardStorageSpec := jobutils_GetShardStorageSpec w;
     storage_ParallelPrepareStorage := storage_ParallelPrepareStorage w;
     model_JSONMarshalWithMax := model_JSONMarshalWithMax w;
     capacity_ParseResourceUsageConfig := capacity_ParseResourceUsageConfig w;
     Executor_setupNetworkForJob := Executor_setupNetworkForJob w;
     docker_PullImage := docker_PullImage w;
     Client_ContainerCreate := Client_ContainerCreate w;
     Client_ContainerStart := Client_ContainerStart w;
     docker_FollowLogs := docker_FollowLogs w;
     Client_ContainerWait := Client_ContainerWait w;
     docker_RemoveObjectsWithLabel := answer |}.

(** No character of [s] is a dash. *)
Fixpoint dash_free (s : string) : Prop :=
  match s with
  | EmptyString => True
  | String c s' => c ≠ "-"%char ∧ dash_free s'
  end.


(** The real number the float [f] stands for, times [k], is the whole
    number [n]. *)
Definition float64_times_is (f : float64) (k n : Z) : Prop :=
  match f with
  | S754_zero _ => n = 0
  | S754_finite s m e =>
      (if s then - Z.pos m else Z.pos m) * k * 2 ^ Z.max e 0 = n * 2 ^ Z.max (- e) 0
  | _ => False
  end.


(** The whole number [n] is a binary64 number: at most 53 bits, shifted. *)
Definition float64_whole (n : Z) : Prop :=
  ∃ a b, 0 <= a < 2 ^ 53 ∧ 0 <= b ∧ n = a * 2 ^ b.

(** ** Example data: the scenarios of the specification *)

Definition example_shard (jobID : string) (index : Z) (outs : list model.StorageSpec)
    : model.JobShard :=
  {| model.Job :=
       {| model.Metadata := {| model.ID := jobID |};
          model.Spec :=
            {| model.Docker := {| model.Image := "ubuntu"; model.Entrypoint := ["ls"];
                                  model.EnvironmentVariables := [];
                                  model.WorkingDirectory := "" |};
               model.Resources := {| model.ConfigCPU := ""; model.ConfigMemory := "";
                                     model.ConfigDisk := ""; model.ConfigGPU := "" |};
               model.Contexts := []; model.Outputs := outs |} |};
     model.Index := index |}.

Definition example_input (source target : string)
    : model.StorageSpec * storage.StorageVolume :=
  ({| model.StorageSource := "ipfs"; model.Name := ""; model.Path := target |},
   {| storage.Type_ := storage.StorageVolumeConnectorBind; storage.ReadOnly := true;
      storage.Source := source; storage.Target := target |}).

Definition example_output (name path : string) : model.StorageSpec :=
  {| model.StorageSource := ""; model.Name := name; model.Path := path |}.

(** A world in which everything goes well up to the start of the
    container; ["/"] joins paths, an out-of-range [int64] conversion
    gives the least [int64] (as on amd64), the container is "c1". *)
Definition example_world (requirements : model.ResourceUsageData)
    (vols : list (model.StorageSpec * storage.StorageVolume))
    (start : option error) (wait : container.WaitOutcome) : World :=
  {| Sprintf := λ format _, format;
     filepath_Join := λ dir name, dir +:+ "/" +:+ name;
     os_Getenv := λ _, "";
     os_Mkdir_fault := λ _, None;
     int64_unrepresentable := λ _, - 2 ^ 63;
     JobShard_ID := λ s, model.ID (model.Metadata (model.Job s)) +:+ ":"
                         +:+ fmt_Sprint (model.Index s);
     config_ShouldKeepStack := false;
     jobutils_GetShardStorageSpec := λ _, inr [];
     storage_ParallelPrepareStorage := λ _, inr vols;
     model_JSONMarshalWithMax := λ _, inr "{}";
     capacity_ParseResourceUsageConfig := λ _, requirements;
     Executor_setupNetworkForJob := λ _ config hostConfig, (None, config, hostConfig);
     docker_PullImage := λ _, None;
     Client_ContainerCreate := λ _ _ _, inr "c1";
     Client_ContainerStart := λ _, start;
     docker_FollowLogs := λ _, ("out", "err", None);
     Client_ContainerWait := λ _, wait;
     docker_RemoveObjectsWithLabel := λ _ _, None |}.

(** Half a CPU, 128 MiB, no GPU. *)
Definition example_requirements : model.ResourceUsageData :=
  {| model.CPU := S754_finite false 4503599627370496 (-53);
     model.Memory := 134217728; model.Disk := 0; model.GPU := 0 |}.

(** Ten thousand million CPUs and 2^63 bytes. *)
Definition huge_requirements : model.ResourceUsageData :=
  {| model.CPU := S754_finite false 5242880000000000 (-19);
     model.Memory := 2 ^ 63; model.Disk := 0; model.GPU := 0 |}.

(** * Properties *)

Import docker.

Arguments multierr_Combine : simpl never.
Arguments strings_Contains : simpl never.
Arguments float64_to_int64 : simpl never.
Arguments float64_mul : simpl never.
Arguments float64_of_const : simpl never.
Arguments int64_wrap : simpl never.
Arguments jobContainerLabels : simpl never.
Arguments jobContainerName : simpl never.
Arguments cleanupJob : simpl never.

Ltac unfold_ops :=
  unfold start_ops, create_ops, config_ops, build_ops, storage_ops, pull_ops.

(** ** The two loops of the mount building *)

Section Loops.
Variables (w : World) (jobResultsDir : string).

Lemma RunShard_inputVolumes_bind vols mounts :
  Forall is_bind vols ->
  RunShard_inputVolumes vols mounts = (mounts ++ map inputMount vols, None).
Proof.
  intros H. revert mounts.
  induction H as [|[spec v] vols Hv _ IH]; intros mounts; simpl.
  - by rewrite app_nil_r.
  - unfold is_bind in Hv; simpl in Hv.
    destruct (decide _) as [_|?]; [|done].
    rewrite IH, <- app_assoc. done.
Qed.

Lemma RunShard_inputVolumes_other pre v post mounts :
  Forall is_bind pre -> ¬ is_bind v ->
  RunShard_inputVolumes (pre ++ v :: post) mounts
  = (mounts ++ map inputMount pre,
     Some (fmt_Errorf "unknown storage volume type: %s"
                      [arg_string (storage.Type_ (snd v))])).
Proof.
  intros H Hv. revert mounts.
  induction H as [|[spec u] pre Hu _ IH]; intros mounts; simpl.
  - destruct v as [spec v]. unfold is_bind in Hv; simpl in *.
    destruct (decide _) as [?|_]; [done|]. by rewrite app_nil_r.
  - unfold is_bind in Hu; simpl in Hu.
    destruct (decide _) as [_|?]; [|done].
    rewrite IH, <- app_assoc. done.
Qed.

(** Either all volumes are bind volumes or there is a first one that is not. *)
Lemma volumes_bind_or_not (vols : list (model.StorageSpec * storage.StorageVolume)) :
  Forall is_bind vols ∨
  ∃ pre v post, vols = pre ++ v :: post ∧ Forall is_bind pre ∧ ¬ is_bind v.
Proof.
  induction vols as [|v vols IH]; [by left|].
  destruct (decide (storage.Type_ (snd v) = storage.StorageVolumeConnectorBind)) as [Hv|Hv].
  - destruct IH as [IH|(pre & u & post & -> & Hpre & Hu)].
    + left. by constructor.
    + right. exists (v :: pre), u, post. repeat split; [|done]. by constructor.
  - right. exists [], v, vols. by repeat split.
Qed.

Lemma RunShard_outputs_made done rest mounts h :
  Forall valid_output done ->
  dirs_makeable w jobResultsDir done (dirs h) ->
  RunShard_outputs w jobResultsDir (done ++ rest) mounts h
  = RunShard_outputs w jobResultsDir rest
      (mounts ++ map (outputMount w jobResultsDir) done)
      {| dirs := made_dirs w jobResultsDir done (dirs h);
         ops := ops h ++ map (mkdir_op w jobResultsDir) done;
         logged := logged h |}.
Proof.
  intros Hv. revert mounts h.
  induction Hv as [|o done [Hn Hp] _ IH]; intros mounts h Hm; simpl.
  - rewrite !app_nil_r. by destruct h.
  - destruct Hm as (Hd & Hf & Hm).
    destruct (decide (model.Name o = "")) as [?|_]; [done|].
    destruct (decide (model.Path o = "")) as [?|_]; [done|].
    unfold os_Mkdir. fold (output_dir w jobResultsDir o).
    rewrite Hd, Hf. rewrite IH by done. simpl.
    rewrite <- !app_assoc. done.
Qed.

Lemma RunShard_outputs_abort o rest mounts h err :
  output_abort w jobResultsDir (dirs h) o err ->
  RunShard_outputs w jobResultsDir (o :: rest) mounts h = ((mounts, Some err), h).
Proof.
  intros Ha. simpl. destruct Ha as [Hn|Hn Hp|perm [Hn Hp] Hd|err [Hn Hp] Hd Hf].
  - destruct (decide _); done.
  - destruct (decide _); [done|]. destruct (decide _); done.
  - destruct (decide _); [done|]. destruct (decide _); [done|].
    unfold os_Mkdir. fold (output_dir w jobResultsDir o). by rewrite Hd.
  - destruct (decide _); [done|]. destruct (decide _); [done|].
    unfold os_Mkdir. fold (output_dir w jobResultsDir o). by rewrite Hd, Hf.
Qed.

(** The outputs can all be made, or there is a first one at which the
    build stops. *)
Lemma outputs_made_or_not (outs : list model.StorageSpec) (d0 : gmap string Z) :
  (Forall valid_output outs ∧ dirs_makeable w jobResultsDir outs d0) ∨
  ∃ done o rest err,
    outs = done ++ o :: rest ∧ Forall valid_output done ∧
    dirs_makeable w jobResultsDir done d0 ∧
    output_abort w jobResultsDir (made_dirs w jobResultsDir done d0) o err.
Proof.
  revert d0. induction outs as [|o outs IH]; intros d0; [by left|].
  destruct (decide (model.Name o = "")) as [Hn|Hn].
  { right. exists [], o, outs, (fmt_Errorf "output volume has no name: %+v" [arg_StorageSpec o]).
    repeat split; [done|]. by constructor. }
  destruct (decide (model.Path o = "")) as [Hp|Hp].
  { right. exists [], o, outs, (fmt_Errorf "output volume has no path: %+v" [arg_StorageSpec o]).
    repeat split; [done|]. by constructor. }
  destruct (d0 !! output_dir w jobResultsDir o) as [perm|] eqn:Hd.
  { right. eexists [], o, outs, _. repeat split; [done|]. by eapply abort_dir_exists. }
  destruct (os_Mkdir_fault w (output_dir w jobResultsDir o)) as [err|] eqn:Hf.
  { right. eexists [], o, outs, _. repeat split; [done|]. by eapply abort_mkdir_fault. }
  destruct (IH (<[output_dir w jobResultsDir o := output_perm]> d0))
    as [[Hv Hm]|(done & o' & rest & err & -> & Hv & Hm & Ha)].
  - left. split; [by constructor|]. done.
  - right. exists (o :: done), o', rest, err. repeat split; try done. by constructor.
Qed.

Lemma RunShard_outputs_all outs mounts h :
  Forall valid_output outs ->
  dirs_makeable w jobResultsDir outs (dirs h) ->
  RunShard_outputs w jobResultsDir outs mounts h
  = ((mounts ++ map (outputMount w jobResultsDir) outs, None),
     {| dirs := made_dirs w jobResultsDir outs (dirs h);
        ops := ops h ++ map (mkdir_op w jobResultsDir) outs;
        logged := logged h |}).
Proof.
  intros Hv Hm. rewrite <- (app_nil_r outs) at 1.
  by rewrite RunShard_outputs_made.
Qed.

End Loops.

(** ** Every invocation takes one of the courses of [run_shape] *)

Section Shape.
Variables (w : World) (e : Executor) (ctx : Context)
          (shard : model.JobShard) (jobResultsDir : string) (d : gmap string Z).

Lemma cleanupJob_spec (h : Host) :
  cleanupJob w e (span_ctx ctx) shard h
  = {| dirs := dirs h;
       ops := ops h ++ cleanup_ops w e shard;
       logged := logged h ++ cleanup_log w e ctx shard |}.
Proof.
  unfold cleanupJob, cleanup_ops, cleanup_log, log_cleanup, call, separateCtx.
  destruct (config_ShouldKeepStack w); simpl.
  - rewrite !app_nil_r. by destruct h.
  - by destruct (docker_RemoveObjectsWithLabel w _ _).
Qed.

Ltac close_with shape Hskip :=
  rewrite cleanupJob_spec; simpl;
  eexists; split; [ eapply shape; eauto; done |];
  split; [| done];
  unfold_ops;
  first [ rewrite (decide_True _ _ Hskip) | rewrite (decide_False _ _ Hskip) ];
  simpl; rewrite <- ?app_assoc; simpl; done.

Lemma RunShard_shape :
  ∃ steps,
    run_shape w e ctx shard jobResultsDir d
      (result w e ctx shard jobResultsDir d) steps
      (dirs_after w e ctx shard jobResultsDir d) ∧
    trace w e ctx shard jobResultsDir d = steps ++ cleanup_ops w e shard ∧
    log_lines w e ctx shard jobResultsDir d = cleanup_log w e ctx shard.
Proof.
  unfold result, trace, log_lines, dirs_after, invocation, RunShard, go_func, fresh.
  unfold mbind, Run_bind, mret, Run_ret, liftH, call, Return, defer, orFail, failOn,
    executor_FailResult, span_End.
  fold (span_ctx ctx).
  simpl.
  destruct (jobutils_GetShardStorageSpec w shard) as [err|sss] eqn:Hsss; simpl.
  { unfold Return; simpl. rewrite cleanupJob_spec; simpl.
    eexists; split; [by constructor|]. done. }
  fold (input_specs shard sss).
  destruct (storage_ParallelPrepareStorage w (input_specs shard sss)) as [err|vols] eqn:Hvols; simpl.
  { rewrite cleanupJob_spec; simpl.
    eexists; split; [by eapply shape_not_prepared|]. done. }
  destruct (volumes_bind_or_not vols) as [Hbind|(pre & v & post & -> & Hpre & Hv)].
  2:{ rewrite RunShard_inputVolumes_other by done. simpl.
      rewrite cleanupJob_spec; simpl.
      eexists; split; [by eapply shape_unknown_volume|]. done. }
  rewrite RunShard_inputVolumes_bind by done. simpl.
  fold (outputs shard).
  destruct (outputs_made_or_not w jobResultsDir (outputs shard) d)
    as [[Hvalid Hmake]|(done & o & rest & err & Houts & Hvalid & Hmake & Habort)].
  2:{ rewrite Houts.
      rewrite RunShard_outputs_made by done.
      erewrite RunShard_outputs_abort by (simpl; exact Habort). simpl.
      rewrite cleanupJob_spec; simpl.
      eexists; split; [by eapply shape_output_abort|]. done. }
  rewrite RunShard_outputs_all by done. simpl.
  fold (built_mounts w shard jobResultsDir vols).
  fold (image shard).
  assert (Hbuilt : built w shard jobResultsDir d sss vols) by done.
  destruct (decide (os_Getenv w "SKIP_IMAGE_PULL" = "")) as [Hskip|Hskip]; simpl.
  1: destruct (docker_PullImage w (image shard)) as [err|] eqn:Hpull; simpl.
  1: { rewrite cleanupJob_spec; simpl.
       eexists; split; [by eapply shape_pull_failed|].
       split; [|done]. unfold_ops. simpl. by rewrite <- ?app_assoc. }
  all: assert (Hpulled : pulled w shard jobResultsDir d sss vols) by done.
  all: destruct (model_JSONMarshalWithMax w (model.Spec (model.Job shard)))
         as [err|jsonJobSpec] eqn:Hjson; simpl;
       [ close_with shape_marshal_failed Hskip |].
  all: fold (containerConfig_built w e shard jsonJobSpec);
       fold (resourceRequirements w shard);
       fold (hostConfig_built w shard (built_mounts w shard jobResultsDir vols)).
  all: destruct (Executor_setupNetworkForJob w shard (containerConfig_built w e shard jsonJobSpec)
                   (hostConfig_built w shard (built_mounts w shard jobResultsDir vols)))
         as [[[err|] config] hostConfig] eqn:Hnet; simpl;
       [ close_with shape_network_failed Hskip |].
  all: assert (Hconf : configured w e shard jobResultsDir d sss vols jsonJobSpec
                         config hostConfig) by done.
  all: destruct (Client_ContainerCreate w config hostConfig (jobContainerName e shard))
         as [err|containerID] eqn:Hcreate; simpl;
       [ close_with shape_create_failed Hskip |].
  all: assert (Hcreated : created w e shard jobResultsDir d sss vols jsonJobSpec config
                            hostConfig containerID) by done.
  all: fold (container_ctx ctx containerID).
  all: destruct (Client_ContainerStart w containerID) as [err|] eqn:Hstart; simpl;
       [ fold (start_failure_message w err); close_with shape_start_failed Hskip |].
  all: pose proof (shape_completed w e ctx shard jobResultsDir d _ _ _ _ _ _
                     Hcreated Hstart) as Hshape.
  all: destruct (docker_FollowLogs w containerID) as [[stdoutPipe stderrPipe] logsErr];
       simpl in *.
  all: destruct (Client_ContainerWait w containerID) as [werr|code [msg|]];
       simpl in *; unfold executor_WriteJobResults; simpl.
  all: rewrite cleanupJob_spec; simpl;
       eexists; (split; [exact Hshape|]); (split; [|done]);
       unfold_ops;
       first [ rewrite (decide_True _ _ Hskip) | rewrite (decide_False _ _ Hskip) ];
       simpl; rewrite <- ?app_assoc; simpl; done.
Qed.
End Shape.

(** ** An invocation takes one course only *)

Section Determinism.
Variables (w : World) (e : Executor) (ctx : Context)
          (shard : model.JobShard) (jobResultsDir : string) (d : gmap string Z).

Lemma first_other_unique
    (pre1 pre2 post1 post2 : list (model.StorageSpec * storage.StorageVolume)) v1 v2 :
  pre1 ++ v1 :: post1 = pre2 ++ v2 :: post2 ->
  Forall is_bind pre1 -> ¬ is_bind v1 ->
  Forall is_bind pre2 -> ¬ is_bind v2 ->
  v1 = v2.
Proof.
  revert pre2. induction pre1 as [|x pre1 IH]; intros [|y pre2] Heq H1 Hv1 H2 Hv2;
    simplify_eq/=; try done.
  - by apply Forall_cons in H2 as [? _].
  - by apply Forall_cons in H1 as [? _].
  - apply Forall_cons in H1 as [_ H1]. apply Forall_cons in H2 as [_ H2]. eauto.
Qed.

Lemma output_abort_det d0 o err1 err2 :
  output_abort w jobResultsDir d0 o err1 ->
  output_abort w jobResultsDir d0 o err2 -> err1 = err2.
Proof.
  intros H1 H2. destruct H1, H2; unfold valid_output in *; try done; try tauto; congruence.
Qed.

Lemma abort_bounds_made done1 o1 rest1 done2 rest2 d0 err :
  done1 ++ o1 :: rest1 = done2 ++ rest2 ->
  Forall valid_output done2 -> dirs_makeable w jobResultsDir done2 d0 ->
  output_abort w jobResultsDir (made_dirs w jobResultsDir done1 d0) o1 err ->
  (length done2 <= length done1)%nat.
Proof.
  revert done2 d0. induction done1 as [|x done1 IH]; intros [|y done2] d0 Heq Hv Hm Ha;
    simpl in *; try lia.
  - injection Heq as -> Heq.
    apply Forall_cons in Hv as [[Hn Hp] _]. destruct Hm as (Hd & Hf & _).
    exfalso. destruct Ha; unfold valid_output in *; try done; congruence.
  - injection Heq as -> Heq.
    apply Forall_cons in Hv as [_ Hv]. destruct Hm as (_ & _ & Hm).
    specialize (IH _ _ Heq Hv Hm Ha). lia.
Qed.

Lemma abort_unique done1 o1 rest1 err1 done2 o2 rest2 err2 :
  done1 ++ o1 :: rest1 = done2 ++ o2 :: rest2 ->
  Forall valid_output done1 -> dirs_makeable w jobResultsDir done1 d ->
  output_abort w jobResultsDir (made_dirs w jobResultsDir done1 d) o1 err1 ->
  Forall valid_output done2 -> dirs_makeable w jobResultsDir done2 d ->
  output_abort w jobResultsDir (made_dirs w jobResultsDir done2 d) o2 err2 ->
  done1 = done2 ∧ err1 = err2.
Proof.
  intros Heq Hv1 Hm1 Ha1 Hv2 Hm2 Ha2.
  pose proof (abort_bounds_made _ _ _ _ _ _ _ Heq Hv2 Hm2 Ha1).
  pose proof (abort_bounds_made _ _ _ _ _ _ _ (eq_sym Heq) Hv1 Hm1 Ha2).
  apply app_inj_1 in Heq as [-> [= -> _]]; [|lia].
  split; [done|]. by eapply output_abort_det.
Qed.

Lemma abort_not_built done o rest err :
  outputs shard = done ++ o :: rest ->
  output_abort w jobResultsDir (made_dirs w jobResultsDir done d) o err ->
  Forall valid_output (outputs shard) ->
  dirs_makeable w jobResultsDir (outputs shard) d -> False.
Proof.
  intros Heq Ha Hv Hm.
  assert (done ++ o :: rest = outputs shard ++ []) as Heq' by (by rewrite app_nil_r).
  pose proof (abort_bounds_made _ _ _ _ _ _ _ Heq' Hv Hm Ha) as Hlen.
  rewrite Heq, length_app in Hlen. simpl in Hlen. lia.
Qed.

Ltac same_answers :=
  repeat match goal with
         | H1 : ?t = _, H2 : ?t = _ |- _ =>
             rewrite H1 in H2; (discriminate H2 || (injection H2 as H2; subst))
         | H : _ ∧ _ |- _ => destruct H
         | H : ?a = "" -> _ , H' : ?a = "" |- _ => specialize (H H')
         end.

Lemma run_shape_det r1 s1 d1 r2 s2 d2 :
  run_shape w e ctx shard jobResultsDir d r1 s1 d1 ->
  run_shape w e ctx shard jobResultsDir d r2 s2 d2 ->
  r1 = r2 ∧ s1 = s2 ∧ d1 = d2.
Proof.
  intros H1 H2.
  destruct H1; destruct H2;
    unfold created, configured, pulled, built, resolved in *;
    same_answers; try done;
    try (exfalso;
         match goal with
         | H : Forall is_bind (_ ++ _ :: _) |- _ =>
             apply Forall_app in H as [_ H]; apply Forall_cons in H as [? _]; done
         | H : outputs shard = _ ++ _ :: _ |- _ =>
             by eapply abort_not_built
         end).
  - match goal with
    | Heq : ?p1 ++ ?v1 :: _ = ?p2 ++ ?v2 :: _,
      H1 : Forall is_bind ?p1, H2 : ¬ is_bind ?v1,
      H3 : Forall is_bind ?p2, H4 : ¬ is_bind ?v2 |- _ =>
        by rewrite (first_other_unique _ _ _ _ _ _ Heq H1 H2 H3 H4)
    end.
  - match goal with
    | E1 : outputs shard = ?d1 ++ ?o1 :: _, E2 : outputs shard = ?d2 ++ ?o2 :: _,
      V1 : Forall valid_output ?d1, M1 : dirs_makeable _ _ ?d1 _, A1 : output_abort _ _ _ ?o1 _,
      V2 : Forall valid_output ?d2, M2 : dirs_makeable _ _ ?d2 _, A2 : output_abort _ _ _ ?o2 _
      |- _ =>
        rewrite E1 in E2;
        by destruct (abort_unique _ _ _ _ _ _ _ _ E2 V1 M1 A1 V2 M2 A2) as [-> ->]
    end.
Qed.

Lemma run_shape_no_removal r steps da :
  run_shape w e ctx shard jobResultsDir d r steps da ->
  Forall (λ o, ¬ is_removal o) steps.
Proof.
  assert (Hmk : ∀ l, Forall (λ o, ¬ is_removal o) (map (mkdir_op w jobResultsDir) l)).
  { intros l. apply Forall_map, Forall_forall. intros ? _. simpl. tauto. }
  assert (Hpull : Forall (λ o, ¬ is_removal o) (pull_ops w ctx shard)).
  { unfold pull_ops. destruct (decide _); repeat constructor; simpl; tauto. }
  intros H. destruct H;
    unfold start_ops, create_ops, config_ops, build_ops, storage_ops;
    repeat (apply Forall_app; split); try done;
    repeat (apply Forall_cons; split; [simpl; tauto|]); try done; apply Forall_nil_2.
Qed.

Lemma with_removal_same answer :
  resolved (with_removal w answer) = resolved w ∧
  output_dir (with_removal w answer) = output_dir w ∧
  made_dirs (with_removal w answer) = made_dirs w ∧
  mkdir_op (with_removal w answer) = mkdir_op w ∧
  dirs_makeable (with_removal w answer) = dirs_makeable w ∧
  built (with_removal w answer) = built w ∧
  pulled (with_removal w answer) = pulled w ∧
  configured (with_removal w answer) = configured w ∧
  created (with_removal w answer) = created w ∧
  start_ops (with_removal w answer) = start_ops w ∧
  create_ops (with_removal w answer) = create_ops w ∧
  config_ops (with_removal w answer) = config_ops w ∧
  build_ops (with_removal w answer) = build_ops w ∧
  pull_ops (with_removal w answer) = pull_ops w ∧
  start_failure_message (with_removal w answer) = start_failure_message w.
Proof. repeat split. Qed.

Lemma run_shape_with_removal answer r steps da :
  run_shape (with_removal w answer) e ctx shard jobResultsDir d r steps da ->
  run_shape w e ctx shard jobResultsDir d r steps da.
Proof.
  destruct (with_removal_same answer)
    as (E1 & E2 & E3 & E4 & E5 & E6 & E7 & E8 & E9 & E10 & E11 & E12 & E13 & E14 & E15).
  intros H. destruct H;
    rewrite ?E1, ?E2, ?E3, ?E4, ?E5, ?E6, ?E7, ?E8, ?E9, ?E10, ?E11, ?E12, ?E13, ?E14, ?E15 in *;
    cbn [with_removal Sprintf filepath_Join os_Getenv os_Mkdir_fault int64_unrepresentable
         JobShard_ID config_ShouldKeepStack jobutils_GetShardStorageSpec
         storage_ParallelPrepareStorage model_JSONMarshalWithMax
         capacity_ParseResourceUsageConfig Executor_setupNetworkForJob docker_PullImage
         Client_ContainerCreate Client_ContainerStart docker_FollowLogs
         Client_ContainerWait docker_RemoveObjectsWithLabel] in *.
  - by eapply shape_no_storage_spec.
  - by eapply shape_not_prepared.
  - by eapply shape_unknown_volume.
  - match goal with
    | R : resolved _ _ _ _, B : Forall is_bind _, E : outputs _ = _,
      V : Forall valid_output _, M : dirs_makeable _ _ _ _, A : output_abort _ _ _ _ _ |- _ =>
        refine (shape_output_abort w e ctx shard jobResultsDir d _ _ _ _ _ _ R B E V M _);
        destruct A; rewrite ?E2;
        [ by eapply abort_no_name | by eapply abort_no_path
        | by eapply abort_dir_exists | by eapply abort_mkdir_fault ]
    end.
  - by eapply shape_pull_failed.
  - by eapply shape_marshal_failed.
  - by eapply shape_network_failed.
  - by eapply shape_create_failed.
  - by eapply shape_start_failed.
  - by eapply shape_completed.
Qed.
End Determinism.

(** ** What a course tells about the invocation *)

Section Course.
Variables (w : World) (e : Executor) (ctx : Context)
          (shard : model.JobShard) (jobResultsDir : string) (d : gmap string Z).

Lemma RunShard_course r steps da :
  run_shape w e ctx shard jobResultsDir d r steps da ->
  result w e ctx shard jobResultsDir d = r ∧
  trace w e ctx shard jobResultsDir d = steps ++ cleanup_ops w e shard ∧
  dirs_after w e ctx shard jobResultsDir d = da.
Proof.
  intros H. destruct (RunShard_shape w e ctx shard jobResultsDir d) as (steps' & H' & Ht & _).
  destruct (run_shape_det _ _ _ _ _ _ _ _ _ _ _ _ H' H) as (-> & -> & ->). done.
Qed.

Lemma cleanup_ops_removal : Forall is_removal (cleanup_ops w e shard).
Proof. unfold cleanup_ops. destruct (config_ShouldKeepStack w); repeat constructor. Qed.

(** A call that is no removal is a call of the course. *)
Lemma trace_step o :
  ¬ is_removal o -> o ∈ trace w e ctx shard jobResultsDir d ->
  ∃ r steps da, run_shape w e ctx shard jobResultsDir d r steps da ∧ o ∈ steps ∧
    result w e ctx shard jobResultsDir d = r ∧
    trace w e ctx shard jobResultsDir d = steps ++ cleanup_ops w e shard ∧
    dirs_after w e ctx shard jobResultsDir d = da.
Proof.
  intros Ho Hin.
  destruct (RunShard_shape w e ctx shard jobResultsDir d) as (steps & H & Ht & _).
  exists (result w e ctx shard jobResultsDir d), steps, (dirs_after w e ctx shard jobResultsDir d).
  repeat split; try done.
  rewrite Ht in Hin. apply elem_of_app in Hin as [Hin|Hin]; [done|].
  pose proof cleanup_ops_removal as Hc. rewrite Forall_forall in Hc. by apply Hc in Hin.
Qed.

End Course.

(** Taking apart a membership in the calls of a course. *)
Ltac in_steps H :=
  unfold start_ops, create_ops, config_ops, build_ops, storage_ops, pull_ops in H;
  repeat first
    [ apply elem_of_app in H as [H|H]
    | apply elem_of_cons in H as [H|H]
    | apply elem_of_nil in H; destruct H
    | apply list_elem_of_In, in_map_iff in H as (? & H & _); discriminate H
    | match type of H with
      | _ ∈ (if ?c then _ else _) => destruct c
      end
    | discriminate H ].

(** ** Strings and combined errors *)

Lemma prefix_spec (p s : string) :
  String.prefix p s = true <-> ∃ t, s = p +:+ t.
Proof.
  revert s. induction p as [|c p IH]; intros s.
  - split; [intros _; by exists s | intros _; by destruct s].
  - destruct s as [|c' s]; simpl; [split; [done | intros [t [=]]] |].
    destruct (Ascii.ascii_dec c c') as [->|Hc].
    + rewrite IH. split; intros [t Ht]; exists t.
      * change (String c' s = String c' (p +:+ t)). congruence.
      * change (String c' s = String c' (p +:+ t)) in Ht. congruence.
    + split; [done | intros [t Ht]].
      change (String c' s = String c (p +:+ t)) in Ht. congruence.
Qed.

Lemma strings_Contains_cons (c : ascii) (s sub : string) :
  strings_Contains (String c s) sub
  = if String.prefix sub (String c s) then true else strings_Contains s sub.
Proof. reflexivity. Qed.

Lemma strings_Contains_spec (s sub : string) :
  strings_Contains s sub = true <-> substring sub s.
Proof.
  unfold substring. split.
  - induction s as [|c s IH].
    + unfold strings_Contains. destruct (String.prefix sub "") eqn:Hp; [|done].
      intros _. apply prefix_spec in Hp as [t Ht]. exists "", t. exact Ht.
    + rewrite strings_Contains_cons.
      destruct (String.prefix sub (String c s)) eqn:Hp.
      * intros _. apply prefix_spec in Hp as [t Ht]. exists "", t. exact Ht.
      * intros (a & b & ->)%IH. exists (String c a), b. reflexivity.
  - intros (a & b & ->). induction a as [|c a IH].
    + change ("" +:+ sub +:+ b) with (sub +:+ b).
      assert (String.prefix sub (sub +:+ b) = true) as Hp
        by (apply prefix_spec; by exists b).
      destruct (sub +:+ b); [unfold strings_Contains | rewrite strings_Contains_cons];
        by rewrite Hp.
    + change (String c a +:+ sub +:+ b) with (String c (a +:+ sub +:+ b)).
      rewrite strings_Contains_cons.
      destruct (String.prefix sub (String c (a +:+ sub +:+ b))); [done|]. exact IH.
Qed.

Lemma multierr_Combine_Errors (a b : option error) :
  multierr_Errors (multierr_Combine [a; b]) = multierr_Errors a ++ multierr_Errors b.
Proof.
  destruct a as [a|], b as [b|]; unfold multierr_Combine; simpl;
    rewrite ?app_nil_r; done.
Qed.

Lemma multierr_Combine_None (a b : option error) :
  multierr_Combine [a; b] = None <-> a = None ∧ b = None.
Proof.
  destruct a as [a|], b as [b|]; unfold multierr_Combine; simpl; split;
    (done || intros [? ?]; done).
Qed.

(** ** The wait step and the result (C1) *)

(** C1. An invocation that reaches the wait step hands to
    [executor.WriteJobResults], and returns as its result, the exit code
    of the exit status (zero when the wait errored) and, as combined
    error, the combination of the container error (the error of the wait
    channel if the wait errored, otherwise the error made of the message
    in the exit status, if any) with the error of following the logs: the
    errors inside it are those of the container error followed by those
    of the log-follow error, so none is dropped, and it is nil only if
    both are. With exit code 137, no runtime error and the logs followed,
    the result has exit code 137 and a nil combined error; when the wait
    channel errors, that error is the first one reported and no exit code
    of the container is. *)
Theorem RunShard_wait_combines_errors
    (w : World) (e : Executor) (ctx : Context) (shard : model.JobShard)
    (jobResultsDir : string) (d : gmap string Z) (c : Context) (containerID : string) :
  OpContainerWait c containerID ∈ trace w e ctx shard jobResultsDir d ->
  let outcome := Client_ContainerWait w containerID in
  let logsErr := (docker_FollowLogs w containerID).2 in
  let containerError :=
    match outcome with
    | container.errCh err => err
    | container.statusCh _ (Some Message) => Some (errors_New Message)
    | container.statusCh _ None => None
    end in
  ∃ r : RunResult,
    result w e ctx shard jobResultsDir d = Completed r ∧
    OpWriteJobResults jobResultsDir
      (docker_FollowLogs w containerID).1.1 (docker_FollowLogs w containerID).1.2
      (exitCode r) (combinedError r) ∈ trace w e ctx shard jobResultsDir d ∧
    combinedError r = multierr_Combine [containerError; logsErr] ∧
    multierr_Errors (combinedError r)
      = multierr_Errors containerError ++ multierr_Errors logsErr ∧
    (combinedError r = None <-> containerError = None ∧ logsErr = None) ∧
    match outcome with
    | container.errCh err =>
        exitCode r = 0 ∧
        (logsErr = None -> combinedError r = err)
    | container.statusCh StatusCode Message =>
        exitCode r = StatusCode ∧
        (StatusCode = 137 -> Message = None -> logsErr = None ->
         exitCode r = 137 ∧ combinedError r = None)
    end.
Proof.
  intros Hin outcome logsErr containerError.
  apply trace_step in Hin as (r & steps & da & H & Hin & Hr & Ht & _); [|simpl; tauto].
  destruct H; in_steps Hin.
  injection Hin as Hc Hid. subst c. symmetry in Hid. subst.
  eexists. split; [exact Hr|]. simpl.
  split.
  { rewrite Ht. apply elem_of_app. left. apply elem_of_app. right.
    repeat constructor. }
  change (containerError_of (Client_ContainerWait w containerID)) with containerError.
  fold logsErr.
  split; [done|]. split; [apply multierr_Combine_Errors|].
  split; [apply multierr_Combine_None|].
  subst containerError outcome.
  destruct (Client_ContainerWait w containerID) as [err|code [msg|]]; simpl.
  - split; [done|]. intros ->. by destruct err.
  - split; [done|]. done.
  - split; [done|]. intros -> _ ->. done.
Qed.

(** ** Start failures (C7) *)

(** C7. When starting the container fails, the shard fails with the start
    error wrapped: with the message "Executable file not found" if the
    text of the start error contains "executable file not found", with
    the message "failed to start container" otherwise. *)
Theorem RunShard_start_failure_classified
    (w : World) (e : Executor) (ctx : Context) (shard : model.JobShard)
    (jobResultsDir : string) (d : gmap string Z) (c : Context) (containerID : string)
    (containerStartError : error) :
  OpContainerStart c containerID ∈ trace w e ctx shard jobResultsDir d ->
  Client_ContainerStart w containerID = Some containerStartError ->
  (substring "executable file not found" (Error (Sprintf w) containerStartError) ->
   result w e ctx shard jobResultsDir d
   = executor_FailResult (errors_Wrap containerStartError "Executable file not found")) ∧
  (¬ substring "executable file not found" (Error (Sprintf w) containerStartError) ->
   result w e ctx shard jobResultsDir d
   = executor_FailResult (errors_Wrap containerStartError "failed to start container")).
Proof.
  intros Hin Hstart.
  apply trace_step in Hin as (r & steps & da & H & Hin & Hr & _); [|simpl; tauto].
  destruct H; in_steps Hin; injection Hin as Hc Hid; subst c; symmetry in Hid; subst;
    [|congruence].
  rewrite Hr. assert (err = containerStartError) as -> by congruence.
  unfold start_failure_message.
  destruct (strings_Contains _ _) eqn:Hc.
  - apply strings_Contains_spec in Hc. split; [done|]. intros Hn. by destruct Hn.
  - split; [|done]. intros Hs%strings_Contains_spec. congruence.
Qed.

(** ** Cleanup (C8) *)

(** C8. Whatever course an invocation takes, the calls of the
    shard-scoped cleanup are the last calls it makes and no removal comes
    before them (of the deferred calls only the closing of the tracing
    span comes later, and that is no call to the host or the daemon).
    The removal runs in a context derived from the
    background context alone, bounded by one minute, not in the context
    [RunShard] works in. With the keep-stack toggle on, the cleanup makes
    no call and logs nothing. Otherwise it logs one line, at debug level
    when the removal went well and at error level, with the error, when
    it failed; whatever the removal answers, the result of the shard and
    the directories it leaves are the same. *)
Theorem RunShard_cleanup_runs_last
    (w : World) (e : Executor) (ctx : Context) (shard : model.JobShard)
    (jobResultsDir : string) (d : gmap string Z) :
  let removalCtx := context_WithTimeout context_Background time_Minute in
  let removalAnswer :=
    docker_RemoveObjectsWithLabel w labelJobName (ID e +:+ JobShard_ID w shard) in
  (∃ steps,
     trace w e ctx shard jobResultsDir d
     = steps ++
       (if config_ShouldKeepStack w then []
        else [OpRemoveObjectsWithLabel removalCtx labelJobName
                (ID e +:+ JobShard_ID w shard)]) ∧
     Forall (λ o, ¬ is_removal o) steps) ∧
  context_chain removalCtx = [removalCtx; context_Background] ∧
  (tracer_Start ctx "pkg/executor/docker.RunShard" ∉ context_chain removalCtx) ∧
  context_timeout removalCtx = Some 60000000000 ∧
  log_lines w e ctx shard jobResultsDir d
  = (if config_ShouldKeepStack w then []
     else [ {| log_ctx := tracer_Start ctx "pkg/executor/docker.RunShard";
               log_level := match removalAnswer with
                            | None => zerolog_DebugLevel
                            | Some _ => zerolog_ErrorLevel
                            end;
               log_err := removalAnswer;
               log_msg := "Cleaned up job Docker resources" |} ]) ∧
  (∀ answer,
     result (with_removal w answer) e ctx shard jobResultsDir d
     = result w e ctx shard jobResultsDir d ∧
     dirs_after (with_removal w answer) e ctx shard jobResultsDir d
     = dirs_after w e ctx shard jobResultsDir d).
Proof.
  intros removalCtx removalAnswer.
  destruct (RunShard_shape w e ctx shard jobResultsDir d) as (steps & H & Ht & Hl).
  split; [|split; [|split; [|split; [|split]]]].
  - exists steps. split; [exact Ht|]. by eapply run_shape_no_removal.
  - done.
  - intros Hin. repeat (apply elem_of_cons in Hin as [Hin|Hin]; [discriminate Hin|]).
    by apply elem_of_nil in Hin.
  - done.
  - exact Hl.
  - intros answer.
    destruct (RunShard_shape (with_removal w answer) e ctx shard jobResultsDir d)
      as (steps' & H' & _ & _).
    apply run_shape_with_removal in H'.
    destruct (RunShard_course _ _ _ _ _ _ _ _ _ H') as (Hr & _ & Hd).
    by rewrite Hr, Hd.
Qed.

(** ** Input volumes (C5) *)

(** C5. The loop over the resolved input volumes appends, for a bind
    volume, a read-only bind mount with the volume's source and target,
    and goes on. Once storage is resolved: if all resolved input volumes
    are bind volumes, the mount list handed on starts with their mounts,
    in order; if some volume is of another kind, the shard fails
    with the error "unknown storage volume type" for the first such
    volume, nothing is called after the storage preparation but the
    cleanup, no mount list is handed on and no sandbox is created. *)
Theorem RunShard_input_volumes_mounted_or_abort
    (w : World) (e : Executor) (ctx : Context) (shard : model.JobShard)
    (jobResultsDir : string) (d : gmap string Z)
    (sss : list model.StorageSpec)
    (vols : list (model.StorageSpec * storage.StorageVolume)) :
  jobutils_GetShardStorageSpec w shard = inr sss ->
  storage_ParallelPrepareStorage w
    (model.Contexts (model.Spec (model.Job shard)) ++ sss) = inr vols ->
  let readOnlyBind (v : model.StorageSpec * storage.StorageVolume) :=
    {| mount.Type_ := mount.TypeBind; mount.ReadOnly := true;
       mount.Source := storage.Source v.2; mount.Target := storage.Target v.2 |} in
  (∀ v rest mounts,
     is_bind v ->
     RunShard_inputVolumes (v :: rest) mounts
     = RunShard_inputVolumes rest (mounts ++ [readOnlyBind v])) ∧
  (Forall is_bind vols ->
   (∀ mounts, RunShard_inputVolumes vols mounts = (mounts ++ map readOnlyBind vols, None)) ∧
   (∀ c config hostConfig,
      OpSetupNetworkForJob c config hostConfig ∈ trace w e ctx shard jobResultsDir d ->
      ∃ outputMounts, container.Mounts hostConfig = map readOnlyBind vols ++ outputMounts)) ∧
  (∀ u, u ∈ vols -> ¬ is_bind u ->
   ∃ pre v post,
     vols = pre ++ v :: post ∧ Forall is_bind pre ∧ ¬ is_bind v ∧
     result w e ctx shard jobResultsDir d
     = executor_FailResult (fmt_Errorf "unknown storage volume type: %s"
                           [arg_string (storage.Type_ v.2)]) ∧
     trace w e ctx shard jobResultsDir d
     = [OpGetShardStorageSpec shard;
        OpParallelPrepareStorage (model.Contexts (model.Spec (model.Job shard)) ++ sss)]
       ++ cleanup_ops w e shard ∧
     ¬ hands_on_mounts (trace w e ctx shard jobResultsDir d) ∧
     ¬ creates_sandbox (trace w e ctx shard jobResultsDir d) ∧
     dirs_after w e ctx shard jobResultsDir d = d).
Proof.
  intros Hsss Hvols readOnlyBind. split; [|split].
  - intros [spec v] rest mounts Hv. unfold is_bind in Hv. simpl in *.
    by destruct (decide _).
  - intros Hbind. split; [intros mounts; by apply RunShard_inputVolumes_bind|].
    intros c config hostConfig Hin.
    apply trace_step in Hin as (r & steps & da & H & Hin & _); [|simpl; tauto].
    destruct H; in_steps Hin; injection Hin as _ _ ->;
      unfold created, configured, pulled, built, resolved, input_specs in *;
      repeat match goal with H : _ ∧ _ |- _ => destruct H end;
      assert (vols0 = vols) as -> by congruence;
      by eexists.
  - intros u Hu Hnb.
    destruct (volumes_bind_or_not vols) as [Hall|(pre & v & post & -> & Hpre & Hv)].
    { rewrite Forall_forall in Hall. by apply Hall in Hu. }
    exists pre, v, post. split; [done|]. split; [done|]. split; [done|].
    assert (Hshape := shape_unknown_volume w e ctx shard jobResultsDir d sss _ pre v post
                        (conj Hsss Hvols) eq_refl Hpre Hv).
    destruct (RunShard_course _ _ _ _ _ _ _ _ _ Hshape) as (Hr & Ht & Hd).
    split; [exact Hr|]. split; [exact Ht|].
    assert (Hno : ¬ hands_on_mounts (trace w e ctx shard jobResultsDir d)).
    { rewrite Ht. pose proof (cleanup_ops_removal w e shard) as Hc.
      rewrite Forall_forall in Hc.
      intros [(c & cf & hc & Hin)|(c & cf & hc & n & Hin)];
        apply elem_of_app in Hin as [Hin|Hin];
        try (by apply Hc in Hin); in_steps Hin. }
    split; [exact Hno|]. split; [|exact Hd].
    intros Hs. apply Hno. by right.
Qed.

(** ** Outputs (C3, C4) and the order of the mounts (C9) *)

Section Outputs.
Variables (w : World) (e : Executor) (ctx : Context)
          (shard : model.JobShard) (jobResultsDir : string) (d : gmap string Z).

Lemma dirs_made_app t1 t2 : dirs_made (t1 ++ t2) = dirs_made t1 ++ dirs_made t2.
Proof.
  induction t1 as [|o t1 IH]; [done|]. destruct o; simpl; by rewrite ?IH.
Qed.

Lemma dirs_made_made (l : list model.StorageSpec) :
  dirs_made (map (mkdir_op w jobResultsDir) l)
  = map (λ o, (output_dir w jobResultsDir o, output_perm)) l.
Proof. induction l as [|o l IH]; [done|]. simpl. by rewrite IH. Qed.

Lemma dirs_made_cleanup : dirs_made (cleanup_ops w e shard) = [].
Proof. unfold cleanup_ops. by destruct (config_ShouldKeepStack w). Qed.

Lemma dirs_made_pull : dirs_made (pull_ops w ctx shard) = [].
Proof. unfold pull_ops. by destruct (decide _). Qed.

Lemma not_handed_on steps :
  (∀ c config hostConfig, OpSetupNetworkForJob c config hostConfig ∉ steps) ->
  (∀ c config hostConfig name, OpContainerCreate c config hostConfig name ∉ steps) ->
  ¬ hands_on_mounts (steps ++ cleanup_ops w e shard).
Proof.
  intros H1 H2. pose proof (cleanup_ops_removal w e shard) as Hc.
  rewrite Forall_forall in Hc.
  intros [(c & cf & hc & Hin)|(c & cf & hc & n & Hin)];
    apply elem_of_app in Hin as [Hin|Hin]; try (by apply Hc in Hin).
  - by eapply H1.
  - by eapply H2.
Qed.

Lemma valid_prefix (l1 l2 r1 r2 : list model.StorageSpec) x :
  l1 ++ x :: r1 = l2 ++ r2 -> Forall valid_output l2 -> ¬ valid_output x ->
  l2 `prefix_of` l1.
Proof.
  revert l2. induction l1 as [|y l1 IH]; intros [|z l2] Heq Hv Hx.
  - done.
  - simpl in Heq. injection Heq as <- _. by apply Forall_cons in Hv as [? _].
  - apply prefix_nil.
  - simpl in Heq. injection Heq as <- Heq. apply Forall_cons in Hv as [_ Hv].
    apply prefix_cons. eauto.
Qed.

Lemma dirs_makeable_fresh (l : list model.StorageSpec) (d0 : gmap string Z) :
  dirs_makeable w jobResultsDir l d0 ->
  NoDup (map (output_dir w jobResultsDir) l) ∧
  (∀ p, d0 !! p = made_dirs w jobResultsDir l d0 !! p ∨
        (d0 !! p = None ∧ made_dirs w jobResultsDir l d0 !! p = Some output_perm ∧
         p ∈ map (output_dir w jobResultsDir) l)) ∧
  (∀ o, o ∈ l ->
     d0 !! output_dir w jobResultsDir o = None ∧
     made_dirs w jobResultsDir l d0 !! output_dir w jobResultsDir o = Some output_perm).
Proof.
  revert d0. induction l as [|x l IH]; intros d0 Hm; simpl.
  - split; [constructor|]. split; [by left|]. intros o Ho. by apply elem_of_nil in Ho.
  - destruct Hm as (Hd & Hf & Hm). destruct (IH _ Hm) as (Hnd & Hkeep & Hin).
    assert (Hx : output_dir w jobResultsDir x ∉ map (output_dir w jobResultsDir) l).
    { intros Hx. apply list_elem_of_In, in_map_iff in Hx as (o & Ho & Hol).
      apply list_elem_of_In, Hin in Hol as [Hol _].
      rewrite Ho in Hol. by rewrite lookup_insert_eq in Hol. }
    split; [by constructor|]. split.
    + intros p. destruct (decide (p = output_dir w jobResultsDir x)) as [->|Hp].
      * right. split; [done|]. split; [|by left].
        destruct (Hkeep (output_dir w jobResultsDir x)) as [<-|(_ & _ & ?)]; [|done].
        by rewrite lookup_insert_eq.
      * destruct (Hkeep p) as [Hk|(Hk1 & Hk2 & Hk3)].
        -- left. rewrite <- Hk. by rewrite lookup_insert_ne.
        -- right. rewrite lookup_insert_ne in Hk1 by done.
           split; [done|]. split; [done|]. by right.
    + intros o [->|Ho]%elem_of_cons.
      * split; [done|].
        destruct (Hkeep (output_dir w jobResultsDir x)) as [<-|(_ & _ & ?)]; [|done].
        by rewrite lookup_insert_eq.
      * destruct (Hin o Ho) as [Ho1 Ho2]. split; [|done].
        destruct (decide (output_dir w jobResultsDir o = output_dir w jobResultsDir x))
          as [Heq|Hne].
        -- rewrite Heq in Ho1. by rewrite lookup_insert_eq in Ho1.
        -- by rewrite lookup_insert_ne in Ho1.
Qed.

End Outputs.

(** C3. An output with an empty name or an empty path stops the loop over
    the outputs as soon as the loop gets to it: with the error that says
    which of the two is missing, with the mount list as it was (no entry
    for this output nor for a later one) and with the host untouched (no
    directory made). An invocation with such an output fails, hands no
    mount list on, and makes directories for outputs before it only;
    when all went well up to it, the shard fails with that error and
    exactly the directories of the outputs before it were made: none at
    all if it is the first output. *)
Theorem RunShard_invalid_output_aborts
    (w : World) (e : Executor) (ctx : Context) (shard : model.JobShard)
    (jobResultsDir : string) (d : gmap string Z)
    (before : list model.StorageSpec) (o : model.StorageSpec)
    (after : list model.StorageSpec) :
  model.Outputs (model.Spec (model.Job shard)) = before ++ o :: after ->
  model.Name o = "" ∨ model.Path o = "" ->
  let validationError :=
    if decide (model.Name o = "")
    then fmt_Errorf "output volume has no name: %+v" [arg_StorageSpec o]
    else fmt_Errorf "output volume has no path: %+v" [arg_StorageSpec o] in
  let asked (l : list model.StorageSpec) :=
    map (λ o', (filepath_Join w jobResultsDir (model.Name o'), 493)) l in
  (∀ mounts h,
     RunShard_outputs w jobResultsDir (o :: after) mounts h
     = ((mounts, Some validationError), h)) ∧
  (∃ err made,
     result w e ctx shard jobResultsDir d = executor_FailResult err ∧
     ¬ hands_on_mounts (trace w e ctx shard jobResultsDir d) ∧
     made `prefix_of` before ∧
     dirs_made (trace w e ctx shard jobResultsDir d) = asked made ∧
     dirs_after w e ctx shard jobResultsDir d = made_dirs w jobResultsDir made d) ∧
  (∀ sss vols,
     resolved w shard sss vols -> Forall is_bind vols ->
     Forall valid_output before -> dirs_makeable w jobResultsDir before d ->
     result w e ctx shard jobResultsDir d = executor_FailResult validationError ∧
     dirs_made (trace w e ctx shard jobResultsDir d) = asked before ∧
     dirs_after w e ctx shard jobResultsDir d = made_dirs w jobResultsDir before d ∧
     (before = [] -> dirs_after w e ctx shard jobResultsDir d = d)).
Proof.
  intros Houts Hbad validationError asked.
  assert (Habort : ∀ d0, output_abort w jobResultsDir d0 o validationError).
  { intros d0. subst validationError. destruct (decide (model.Name o = "")) as [Hn|Hn].
    - by constructor.
    - destruct Hbad as [?|Hp]; [done|]. by constructor. }
  assert (Hinvalid : ¬ valid_output o).
  { intros [Hn Hp]. by destruct Hbad. }
  split; [|split].
  - intros mounts h. by apply RunShard_outputs_abort.
  - destruct (RunShard_shape w e ctx shard jobResultsDir d) as (steps & H & Ht & _).
    remember (result w e ctx shard jobResultsDir d) as r eqn:Hr.
    remember (dirs_after w e ctx shard jobResultsDir d) as da eqn:Hda.
    rewrite Ht. clear Ht Hr Hda.
    destruct H;
      try (exfalso;
           match goal with
           | H : built _ _ _ _ _ _ |- _ => destruct H as (_ & _ & Hv & _)
           | H : pulled _ _ _ _ _ _ |- _ => destruct H as ((_ & _ & Hv & _) & _)
           | H : configured _ _ _ _ _ _ _ _ _ _ |- _ =>
               destruct H as (((_ & _ & Hv & _) & _) & _)
           | H : created _ _ _ _ _ _ _ _ _ _ _ |- _ =>
               destruct H as ((((_ & _ & Hv & _) & _) & _) & _)
           end;
           unfold outputs in Hv; rewrite Houts in Hv;
           apply Forall_app in Hv as [_ Hv]; apply Forall_cons in Hv as [? _]; done).
    + eexists _, []. split; [done|]. split; [|split; [apply prefix_nil|]].
      * apply not_handed_on; intros; intros Hin; in_steps Hin.
      * rewrite dirs_made_app, dirs_made_cleanup. done.
    + eexists _, []. split; [done|]. split; [|split; [apply prefix_nil|]].
      * apply not_handed_on; intros; intros Hin; in_steps Hin.
      * rewrite dirs_made_app, dirs_made_cleanup. done.
    + eexists _, []. split; [done|]. split; [|split; [apply prefix_nil|]].
      * apply not_handed_on; intros; intros Hin; in_steps Hin.
      * rewrite dirs_made_app, dirs_made_cleanup. done.
    + eexists _, done. split; [done|]. split; [|split; [|split]].
      * apply not_handed_on; intros; intros Hin; in_steps Hin.
      * unfold outputs in *.
        match goal with E : model.Outputs _ = _ |- _ => rewrite Houts in E;
          eapply valid_prefix; [exact E | done | done] end.
      * rewrite !dirs_made_app, dirs_made_cleanup, dirs_made_made, app_nil_r. done.
      * done.
  - intros sss vols Hres Hbind Hvalid Hmake.
    assert (Hshape := shape_output_abort w e ctx shard jobResultsDir d sss vols
                        before o after validationError Hres Hbind Houts Hvalid Hmake
                        (Habort _)).
    destruct (RunShard_course _ _ _ _ _ _ _ _ _ Hshape) as (Hr & Ht & Hd).
    split; [exact Hr|]. split; [|split; [exact Hd|]].
    + rewrite Ht, !dirs_made_app, dirs_made_cleanup, dirs_made_made, app_nil_r. done.
    + intros ->. exact Hd.
Qed.

(** C4. The loop over the outputs, at an output with a name and a path:
    it asks for the directory [filepath.Join(jobResultsDir, Name)] with
    the permission bits rwxr-xr-x (owner read, write, execute; group and
    others read, execute); if the directory is made, one read-write bind
    mount from that directory to the output's path is appended and the
    loop goes on; if it cannot be made (it exists already, or the host
    refuses), the loop stops with that error. When an invocation hands a mount list on, the
    list ends with exactly one such mount per output, in order; every
    output has a name and a path; the directories of the outputs are
    pairwise different, were not there before and are there afterwards,
    with those permission bits. When a directory cannot be made, the
    shard fails and no mount list is handed on. *)
Theorem RunShard_valid_outputs_mounted
    (w : World) (e : Executor) (ctx : Context) (shard : model.JobShard)
    (jobResultsDir : string) (d : gmap string Z) :
  let perm := Z.lor (Z.lor util.OS_ALL_R util.OS_ALL_X) util.OS_USER_W in
  let srcd (o : model.StorageSpec) := filepath_Join w jobResultsDir (model.Name o) in
  let readWriteBind (o : model.StorageSpec) :=
    {| mount.Type_ := mount.TypeBind; mount.ReadOnly := false;
       mount.Source := srcd o; mount.Target := model.Path o |} in
  let outs := model.Outputs (model.Spec (model.Job shard)) in
  (perm = 493 ∧
   map (Z.testbit perm) [8; 7; 6; 5; 4; 3; 2; 1; 0]
   = [true; true; true; true; false; true; true; false; true]) ∧
  (∀ o rest mounts h,
     model.Name o ≠ "" -> model.Path o ≠ "" ->
     RunShard_outputs w jobResultsDir (o :: rest) mounts h
     = match dirs h !! srcd o, os_Mkdir_fault w (srcd o) with
       | None, None =>
           RunShard_outputs w jobResultsDir rest (mounts ++ [readWriteBind o])
             {| dirs := <[srcd o := perm]> (dirs h);
                ops := ops h ++ [OpMkdir (srcd o) perm];
                logged := logged h |}
       | Some _, _ =>
           ((mounts, Some (errors_New ("mkdir " +:+ srcd o +:+ ": file exists"))), h)
       | None, Some err => ((mounts, Some err), h)
       end) ∧
  (∀ c config hostConfig,
     OpSetupNetworkForJob c config hostConfig ∈ trace w e ctx shard jobResultsDir d ->
     (∃ inputMounts,
        container.Mounts hostConfig = inputMounts ++ map readWriteBind outs ∧
        Forall (λ m, mount.ReadOnly m = true) inputMounts) ∧
     Forall valid_output outs ∧
     NoDup (map srcd outs) ∧
     dirs_made (trace w e ctx shard jobResultsDir d) = map (λ o, (srcd o, perm)) outs ∧
     (∀ o, o ∈ outs ->
        d !! srcd o = None ∧
        dirs_after w e ctx shard jobResultsDir d !! srcd o = Some perm)) ∧
  (∀ sss vols done o rest,
     resolved w shard sss vols -> Forall is_bind vols ->
     outs = done ++ o :: rest ->
     Forall valid_output done -> dirs_makeable w jobResultsDir done d ->
     valid_output o ->
     made_dirs w jobResultsDir done d !! srcd o ≠ None ∨ os_Mkdir_fault w (srcd o) ≠ None ->
     (∃ err, result w e ctx shard jobResultsDir d = executor_FailResult err ∧
             output_abort w jobResultsDir (made_dirs w jobResultsDir done d) o err) ∧
     ¬ hands_on_mounts (trace w e ctx shard jobResultsDir d) ∧
     ¬ creates_sandbox (trace w e ctx shard jobResultsDir d)).
Proof.
  intros perm srcd readWriteBind outs.
  split; [done|]. split; [|split].
  - intros o rest mounts h Hn Hp. simpl.
    destruct (decide (model.Name o = "")) as [?|_]; [done|].
    destruct (decide (model.Path o = "")) as [?|_]; [done|].
    unfold os_Mkdir. fold (srcd o).
    destruct (dirs h !! srcd o); [done|].
    by destruct (os_Mkdir_fault w (srcd o)).
  - intros c config hostConfig Hin.
    apply trace_step in Hin as (r & steps & da & H & Hin & _ & Ht & Hda); [|simpl; tauto].
    rewrite Ht, Hda. clear Ht Hda.
    destruct H; in_steps Hin; injection Hin as _ _ ->;
      unfold created, configured, pulled, built, resolved in *;
      repeat match goal with H : _ ∧ _ |- _ => destruct H end;
      match goal with M : dirs_makeable _ _ _ _ |- _ =>
        destruct (dirs_makeable_fresh _ _ _ _ M) as (Hnd & _ & Hfresh) end;
      (split; [exists (map inputMount vols); split; [done|];
               apply Forall_map, Forall_forall; done |]);
      (split; [done|]); (split; [done|]); (split; [|exact Hfresh]);
      unfold start_ops, create_ops, config_ops, build_ops, storage_ops;
      rewrite ?dirs_made_app, dirs_made_made, dirs_made_cleanup,
        ?dirs_made_pull; simpl; by rewrite ?app_nil_r.
  - intros sss vols done o rest Hres Hbind Houts Hvalid Hmake Ho Hfail.
    assert (∃ err, output_abort w jobResultsDir (made_dirs w jobResultsDir done d) o err)
      as [err Habort].
    { destruct (made_dirs w jobResultsDir done d !! srcd o) as [p|] eqn:Hd.
      - eexists. by eapply abort_dir_exists.
      - destruct (os_Mkdir_fault w (srcd o)) as [err|] eqn:Hf.
        + exists err. by eapply abort_mkdir_fault.
        + by destruct Hfail. }
    assert (Hshape := shape_output_abort w e ctx shard jobResultsDir d sss vols
                        done o rest err Hres Hbind Houts Hvalid Hmake Habort).
    destruct (RunShard_course _ _ _ _ _ _ _ _ _ Hshape) as (Hr & Ht & Hd).
    split; [by exists err|].
    assert (Hno : ¬ hands_on_mounts (trace w e ctx shard jobResultsDir d)).
    { rewrite Ht. apply not_handed_on; intros; intros Hin; in_steps Hin. }
    split; [exact Hno|]. intros Hs. apply Hno. by right.
Qed.

(** C9. The mount list an invocation hands on is the list of the mounts
    of the resolved input volumes, in the order in which the loop visited
    them, followed by the mounts of the outputs, in the order of the job
    specification: one entry per volume and per output, with the targets
    as they were given, equal ones included. *)
Theorem RunShard_mounts_in_insertion_order
    (w : World) (e : Executor) (ctx : Context) (shard : model.JobShard)
    (jobResultsDir : string) (d : gmap string Z)
    (c : Context) (config : container.Config) (hostConfig : container.HostConfig) :
  OpSetupNetworkForJob c config hostConfig ∈ trace w e ctx shard jobResultsDir d ->
  let outs := model.Outputs (model.Spec (model.Job shard)) in
  ∃ sss vols,
    jobutils_GetShardStorageSpec w shard = inr sss ∧
    storage_ParallelPrepareStorage w
      (model.Contexts (model.Spec (model.Job shard)) ++ sss) = inr vols ∧
    container.Mounts hostConfig
    = map (λ v, {| mount.Type_ := mount.TypeBind; mount.ReadOnly := true;
                   mount.Source := storage.Source v.2;
                   mount.Target := storage.Target v.2 |}) vols
      ++ map (λ o, {| mount.Type_ := mount.TypeBind; mount.ReadOnly := false;
                      mount.Source := filepath_Join w jobResultsDir (model.Name o);
                      mount.Target := model.Path o |}) outs ∧
    map mount.Target (container.Mounts hostConfig)
    = map (λ v, storage.Target v.2) vols ++ map model.Path outs ∧
    length (container.Mounts hostConfig) = (length vols + length outs)%nat.
Proof.
  intros Hin outs.
  apply trace_step in Hin as (r & steps & da & H & Hin & _); [|simpl; tauto].
  destruct H; in_steps Hin; injection Hin as _ _ ->;
    unfold created, configured, pulled, built, resolved, input_specs in *;
    repeat match goal with H : _ ∧ _ |- _ => destruct H end;
    exists sss, vols; (split; [done|]); (split; [done|]); (split; [done|]);
    simpl; unfold built_mounts;
    rewrite map_app, !map_map, length_app, !length_map; done.
Qed.

(** ** Names and labels (C6) *)

Lemma append_cons (c : ascii) (s t : string) : String c s +:+ t = String c (s +:+ t).
Proof. reflexivity. Qed.

Lemma append_nil_l (s : string) : "" +:+ s = s.
Proof. reflexivity. Qed.

Ltac norm_append := rewrite ?append_cons, ?append_nil_l in *.

Lemma dash_free_app_dash (x y : string) : ¬ dash_free (x +:+ "-" +:+ y).
Proof.
  induction x as [|c x IH]; norm_append; [intros [? _]; done|].
  intros [_ ?]. done.
Qed.

Lemma split_at_first_dash (a1 a2 r1 r2 : string) :
  dash_free a1 -> dash_free a2 ->
  a1 +:+ "-" +:+ r1 = a2 +:+ "-" +:+ r2 -> a1 = a2 ∧ r1 = r2.
Proof.
  revert a2. induction a1 as [|c a1 IH]; intros [|c' a2] H1 H2 Heq; norm_append.
  - by injection Heq as ->.
  - injection Heq as <- _. by destruct H2.
  - injection Heq as -> _. by destruct H1.
  - injection Heq as -> Heq.
    destruct H1 as [_ H1], H2 as [_ H2].
    by destruct (IH _ H1 H2 Heq) as [-> ->].
Qed.

Lemma split_at_last_dash (b1 b2 n1 n2 : string) :
  dash_free n1 -> dash_free n2 ->
  b1 +:+ "-" +:+ n1 = b2 +:+ "-" +:+ n2 -> b1 = b2 ∧ n1 = n2.
Proof.
  revert b2. induction b1 as [|c b1 IH]; intros [|c' b2] H1 H2 Heq; norm_append.
  - by injection Heq as ->.
  - injection Heq as <- Heq.
    rewrite Heq in H1. by apply dash_free_app_dash in H1.
  - injection Heq as -> Heq.
    rewrite <- Heq in H2. by apply dash_free_app_dash in H2.
  - injection Heq as -> Heq.
    by destruct (IH _ H1 H2 Heq) as [-> ->].
Qed.

Lemma append_length (s t : string) :
  String.length (s +:+ t) = (String.length s + String.length t)%nat.
Proof. induction s as [|c s IH]; [done|]. norm_append. simpl. by rewrite IH. Qed.

Lemma append_inj_length (a1 a2 r1 r2 : string) :
  String.length a1 = String.length a2 ->
  a1 +:+ r1 = a2 +:+ r2 -> a1 = a2 ∧ r1 = r2.
Proof.
  revert a2. induction a1 as [|c a1 IH]; intros [|c' a2] Hlen Heq; try done.
  norm_append. injection Heq as -> Heq. injection Hlen as Hlen.
  by destruct (IH _ Hlen Heq) as [-> ->].
Qed.

Lemma append_inj_tail (x1 x2 t : string) : x1 +:+ t = x2 +:+ t -> x1 = x2.
Proof.
  intros Heq. apply (append_inj_length x1 x2 t t); [|done].
  apply (f_equal String.length) in Heq. rewrite !append_length in Heq. lia.
Qed.

Lemma append_assoc (a b c : string) : (a +:+ b) +:+ c = a +:+ b +:+ c.
Proof. induction a as [|x a IH]; [done|]. norm_append. by rewrite IH. Qed.

Lemma pretty_N_go_dash_free (x : N) (s : string) :
  dash_free s -> dash_free (pretty_N_go x s).
Proof.
  revert s. induction (N.lt_wf_0 x) as [x _ IH]. intros s Hs.
  destruct (decide (x = 0)%N) as [->|Hx]; [by rewrite pretty_N_go_0|].
  rewrite pretty_N_go_step by lia. apply IH.
  - apply N.div_lt; lia.
  - split; [|done]. unfold pretty_N_char. by repeat case_match.
Qed.

Lemma fmt_Sprint_dash_free (i : Z) : 0 <= i -> dash_free (fmt_Sprint i).
Proof.
  intros Hi. unfold fmt_Sprint, pretty, pretty_Z. destruct i as [|p|p]; [| |lia].
  - split; done.
  - unfold pretty, pretty_positive, pretty, pretty_N.
    destruct (decide _); [done|]. by apply pretty_N_go_dash_free.
Qed.

Lemma jobContainerName_format (e : Executor) (shard : model.JobShard) :
  jobContainerName e shard
  = "bacalhau-" +:+ ID e +:+ "-" +:+ model.ID (model.Metadata (model.Job shard))
    +:+ "-" +:+ fmt_Sprint (model.Index shard) +:+ "-executor".
Proof. reflexivity. Qed.

(** C6, refuted as stated: the executor "a-b" running shard 0 of job "c"
    and the executor "a" running shard 0 of job "b-c" are different pairs
    with one and the same container name. *)
Lemma jobContainerName_collides :
  ({| ID := "a-b" |}, example_shard "c" 0 []) ≠ ({| ID := "a" |}, example_shard "b-c" 0 []) ∧
  jobContainerName {| ID := "a-b" |} (example_shard "c" 0 [])
  = jobContainerName {| ID := "a" |} (example_shard "b-c" 0 []).
Proof. split; [discriminate | reflexivity]. Qed.

(** C6, amended. The container name is
    "bacalhau-{executorID}-{jobID}-{shardIndex}-executor", the job-label
    value is the executor ID followed by the shard's identity string, and
    both are functions of these parts alone. Two pairs with dash-free
    executor IDs and shard indices that are not negative have the same
    container name only if executor ID, job ID and shard index agree; two
    pairs with executor IDs of the same length have the same job-label
    value only if executor ID and shard identity string agree. *)
Theorem jobContainerName_unique_for_dash_free_executors
    (w : World) (e1 e2 : Executor) (shard1 shard2 : model.JobShard) :
  let jobID (s : model.JobShard) := model.ID (model.Metadata (model.Job s)) in
  (jobContainerName e1 shard1
   = "bacalhau-" +:+ ID e1 +:+ "-" +:+ jobID shard1 +:+ "-"
     +:+ fmt_Sprint (model.Index shard1) +:+ "-executor" ∧
   labelJobValue w e1 shard1 = ID e1 +:+ JobShard_ID w shard1 ∧
   jobContainerLabels w e1 shard1
   = {[ "bacalhau-executor" := ID e1;
        "bacalhau-jobID" := ID e1 +:+ JobShard_ID w shard1 ]}) ∧
  (ID e1 = ID e2 -> jobID shard1 = jobID shard2 ->
   model.Index shard1 = model.Index shard2 ->
   jobContainerName e1 shard1 = jobContainerName e2 shard2) ∧
  (ID e1 = ID e2 -> JobShard_ID w shard1 = JobShard_ID w shard2 ->
   labelJobValue w e1 shard1 = labelJobValue w e2 shard2 ∧
   jobContainerLabels w e1 shard1 = jobContainerLabels w e2 shard2) ∧
  (dash_free (ID e1) -> dash_free (ID e2) ->
   0 <= model.Index shard1 -> 0 <= model.Index shard2 ->
   jobContainerName e1 shard1 = jobContainerName e2 shard2 ->
   ID e1 = ID e2 ∧ jobID shard1 = jobID shard2 ∧
   model.Index shard1 = model.Index shard2) ∧
  (String.length (ID e1) = String.length (ID e2) ->
   labelJobValue w e1 shard1 = labelJobValue w e2 shard2 ->
   ID e1 = ID e2 ∧ JobShard_ID w shard1 = JobShard_ID w shard2).
Proof.
  intros jobID. split; [done|]. split; [|split; [|split]].
  - intros He Hj Hi. rewrite !jobContainerName_format. fold (jobID shard1) (jobID shard2).
    by rewrite He, Hj, Hi.
  - intros He Hs. unfold jobContainerLabels, labelJobValue. by rewrite He, Hs.
  - intros H1 H2 Hi1 Hi2. rewrite !jobContainerName_format.
    fold (jobID shard1) (jobID shard2).
    intros Heq. injection Heq as Heq.
    apply split_at_first_dash in Heq as [He Heq]; [|done|done].
    split; [done|].
    rewrite <- !(append_assoc (fmt_Sprint _) "-" "executor") in Heq.
    rewrite <- !(append_assoc "-" (fmt_Sprint _ +:+ "-") "executor") in Heq.
    rewrite <- !(append_assoc (jobID _) ("-" +:+ _) "executor") in Heq.
    apply append_inj_tail in Heq.
    rewrite <- !(append_assoc "-" (fmt_Sprint _) "-") in Heq.
    rewrite <- !(append_assoc (jobID _) _ "-") in Heq.
    apply append_inj_tail in Heq.
    apply split_at_last_dash in Heq as [Hj Hn]; [|by apply fmt_Sprint_dash_free..].
    split; [done|]. by apply (inj pretty) in Hn.
  - intros Hlen Heq. unfold labelJobValue in Heq.
    by apply append_inj_length in Heq.
Qed.

(** ** Binary64 products that are whole numbers *)

Lemma iter_pos_nat {A} (f : A -> A) (p : positive) (x : A) :
  SpecFloat.iter_pos f p x = Nat.iter (Pos.to_nat p) f x.
Proof.
  revert x. induction p as [p IH|p IH|]; intros x; cbn [SpecFloat.iter_pos].
  - rewrite !IH, Pos2Nat.inj_xI.
    replace (2 * Pos.to_nat p)%nat with (Pos.to_nat p + Pos.to_nat p)%nat by lia.
    by rewrite Nat.iter_succ_r, Nat.iter_add.
  - rewrite !IH, Pos2Nat.inj_xO.
    replace (2 * Pos.to_nat p)%nat with (Pos.to_nat p + Pos.to_nat p)%nat by lia.
    by rewrite Nat.iter_add.
  - done.
Qed.

Lemma shifted_value (k : nat) (q : positive) :
  Z.pos (Nat.iter k xO q) = Z.pos q * 2 ^ Z.of_nat k.
Proof.
  induction k as [|k IH]; [simpl; lia|].
  rewrite Nat2Z.inj_succ, Z.pow_succ_r by lia. simpl Nat.iter.
  rewrite Pos2Z.inj_xO, IH. lia.
Qed.

Lemma shifted_digits (k : nat) (q : positive) :
  Z.pos (digits2_pos (Nat.iter k xO q)) = Z.pos (digits2_pos q) + Z.of_nat k.
Proof.
  induction k as [|k IH]; [simpl; lia|].
  simpl Nat.iter. simpl digits2_pos. rewrite Pos2Z.inj_succ, IH. lia.
Qed.

Lemma shifted_back (k : nat) (q : positive) :
  Nat.iter k shr_1 {| shr_m := Z.pos (Nat.iter k xO q); shr_r := false; shr_s := false |}
  = {| shr_m := Z.pos q; shr_r := false; shr_s := false |}.
Proof.
  induction k as [|k IH]; [done|].
  rewrite Nat.iter_succ_r. simpl Nat.iter at 2. simpl shr_1. exact IH.
Qed.

Lemma digits_bounds (p : positive) :
  2 ^ (Z.pos (digits2_pos p) - 1) <= Z.pos p < 2 ^ Z.pos (digits2_pos p).
Proof.
  induction p as [p IH|p IH|]; simpl digits2_pos; rewrite ?Pos2Z.inj_succ.
  - replace (Z.succ (Z.pos (digits2_pos p)) - 1) with (Z.succ (Z.pos (digits2_pos p) - 1)) by lia.
    rewrite !Z.pow_succ_r by lia. lia.
  - replace (Z.succ (Z.pos (digits2_pos p)) - 1) with (Z.succ (Z.pos (digits2_pos p) - 1)) by lia.
    rewrite !Z.pow_succ_r by lia. lia.
  - simpl. lia.
Qed.

Lemma shr_fexp_keeps (M : positive) (E : Z) :
  fexp 53 1024 (Z.pos (digits2_pos M) + E) - E <= 0 ->
  shr_fexp 53 1024 (Z.pos M) E loc_Exact
  = ({| shr_m := Z.pos M; shr_r := false; shr_s := false |}, E).
Proof.
  intros Hk. unfold shr_fexp, shr. simpl Zdigits2. simpl shr_record_of_loc.
  destruct (fexp 53 1024 (Z.pos (digits2_pos M) + E) - E); [done|lia|done].
Qed.

Lemma shr_fexp_shifts (q : positive) (k : nat) (E : Z) :
  (0 < k)%nat ->
  fexp 53 1024 (Z.pos (digits2_pos (Nat.iter k xO q)) + E) - E = Z.of_nat k ->
  shr_fexp 53 1024 (Z.pos (Nat.iter k xO q)) E loc_Exact
  = ({| shr_m := Z.pos q; shr_r := false; shr_s := false |}, E + Z.of_nat k).
Proof.
  intros Hpos Hk. unfold shr_fexp, shr. simpl Zdigits2. simpl shr_record_of_loc.
  rewrite Hk. destruct (Z.of_nat k) as [|p|p] eqn:Hp; [lia| |lia].
  rewrite iter_pos_nat. replace (Pos.to_nat p) with k by lia.
  by rewrite shifted_back.
Qed.

Lemma pow2_split (x y : Z) : 0 <= y <= x -> 2 ^ x = 2 ^ (x - y) * 2 ^ y.
Proof. intros H. rewrite <- Z.pow_add_r by lia. f_equal. lia. Qed.

Lemma pow2_lt (x y : Z) : 0 <= y -> 2 ^ x < 2 ^ y -> x < y.
Proof.
  intros Hy H. destruct (Z.le_gt_cases y x) as [Hle|]; [|done].
  apply (Z.pow_le_mono_r 2) in Hle; lia.
Qed.

Lemma binary_round_aux_whole (M : positive) (E n a b : Z) :
  0 < n < 2 ^ 63 -> 0 <= a < 2 ^ 53 -> 0 <= b -> n = a * 2 ^ b ->
  Z.pos M * 2 ^ Z.max E 0 = n * 2 ^ Z.max (- E) 0 ->
  ∃ m' e',
    binary_round_aux 53 1024 false (Z.pos M) E loc_Exact = S754_finite false m' e' ∧
    float64_trunc_magnitude m' e' = n.
Proof.
  intros Hn Ha Hb Hab Hval.
  pose proof (digits_bounds M) as Hdig.
  set (dg := Z.pos (digits2_pos M)) in *.
  assert (Hdg : 1 <= dg) by (unfold dg; lia).
  pose proof (Z.pow_pos_nonneg 2 b ltac:(lia) Hb) as Hpb.
  assert (Ha1 : 1 <= a) by nia.
  assert (Hb63 : b < 63).
  { apply pow2_lt; [lia|]. nia. }
  assert (Hsum : dg + E <= 53 + b).
  { destruct (Z.le_gt_cases 0 E) as [HE|HE].
    - rewrite Z.max_l, Z.max_r, Z.mul_1_r in Hval by lia.
      assert (2 ^ (dg - 1) * 2 ^ E < 2 ^ 53 * 2 ^ b) by nia.
      rewrite <- !Z.pow_add_r in H by lia.
      apply pow2_lt in H; lia.
    - rewrite Z.max_r, Z.max_l, Z.mul_1_r in Hval by lia.
      pose proof (Z.pow_pos_nonneg 2 (- E) ltac:(lia) ltac:(lia)).
      assert (2 ^ (dg - 1) < 2 ^ 53 * 2 ^ b * 2 ^ (- E)) by nia.
      rewrite <- !Z.pow_add_r in H0 by lia.
      apply pow2_lt in H0; lia. }
  assert (Hfexp : fexp 53 1024 (dg + E) = Z.max (dg + E - 53) (- 1074)) by done.
  assert (HE63 : E < 63).
  { destruct (Z.le_gt_cases 0 E) as [HE|HE]; [|lia].
    rewrite Z.max_l, Z.max_r, Z.mul_1_r in Hval by lia.
    apply pow2_lt; [lia|]. nia. }
  destruct (Z.le_gt_cases (fexp 53 1024 (dg + E) - E) 0) as [Hk|Hk].
  - (* nothing to shift *)
    exists M, E. unfold binary_round_aux.
    rewrite shr_fexp_keeps by done. simpl.
    rewrite shr_fexp_keeps by done. simpl.
    split.
    + destruct (Z.leb E (1024 - 53)) eqn:HE; [done|]. apply Z.leb_gt in HE. lia.
    + unfold float64_trunc_magnitude. destruct E as [|p|p].
      * change (Z.pos M * 1 = n * 1) in Hval. change (Z.pos M * 1 = n). lia.
      * rewrite Z.max_l, Z.max_r in Hval by lia. lia.
      * rewrite Z.max_r, Z.max_l in Hval by lia.
        change (- Z.neg p) with (Z.pos p) in Hval.
        rewrite Z.mul_1_r in Hval. rewrite Hval. apply Z.div_mul.
        pose proof (Z.pow_pos_nonneg 2 (Z.pos p)). lia.
  - (* the bits shifted out are zero *)
    set (e' := fexp 53 1024 (dg + E)) in *.
    assert (He' : e' <= b) by lia.
    set (k := Z.to_nat (e' - E)).
    assert (Hkz : Z.of_nat k = e' - E) by lia.
    pose proof (Z.pow_pos_nonneg 2 (Z.of_nat k) ltac:(lia) ltac:(lia)) as Hp2.
    assert (∃ q : positive,
              Z.pos q * 2 ^ Z.max e' 0 = n * 2 ^ Z.max (- e') 0 ∧
              Z.pos M = Z.pos q * 2 ^ Z.of_nat k) as (q & Hq & HMq).
    { destruct (Z.le_gt_cases e' 0) as [He0|He0].
      - (* the exponent stays below zero: [E < e' <= 0] *)
        pose proof (Z.pow_pos_nonneg 2 (- e') ltac:(lia) ltac:(lia)) as Hp1.
        exists (Z.to_pos (n * 2 ^ (- e'))).
        rewrite Z2Pos.id by nia.
        rewrite Z.max_r, Z.max_l by lia.
        split; [lia|].
        rewrite Z.max_r, Z.max_l, Z.mul_1_r in Hval by lia.
        rewrite Hval, (pow2_split (- E) (- e')) by lia.
        replace (- E - - e') with (Z.of_nat k) by lia. lia.
      - (* [0 < e' <= b] *)
        pose proof (Z.pow_pos_nonneg 2 (b - e') ltac:(lia) ltac:(lia)) as Hp1.
        pose proof (Z.pow_pos_nonneg 2 e' ltac:(lia) ltac:(lia)) as Hp3.
        exists (Z.to_pos (a * 2 ^ (b - e'))).
        rewrite Z2Pos.id by nia.
        rewrite Z.max_l, Z.max_r by lia.
        assert (Hn' : n = a * 2 ^ (b - e') * 2 ^ e').
        { rewrite Hab, (pow2_split b e') by lia. lia. }
        split; [lia|].
        destruct (Z.le_gt_cases 0 E) as [HE|HE].
        + rewrite Z.max_l, Z.max_r, Z.mul_1_r in Hval by lia.
          pose proof (Z.pow_pos_nonneg 2 E ltac:(lia) HE) as Hp4.
          apply (Z.mul_reg_r _ _ (2 ^ E)); [lia|].
          rewrite Hval, Hn', (pow2_split e' E) by lia.
          replace (e' - E) with (Z.of_nat k) by lia. lia.
        + rewrite Z.max_r, Z.max_l, Z.mul_1_r in Hval by lia.
          rewrite Hval, Hn'.
          replace (Z.of_nat k) with (e' + - E) by lia.
          rewrite Z.pow_add_r by lia. lia. }
    assert (HM : M = Nat.iter k xO q).
    { apply Pos2Z.inj. by rewrite shifted_value. }
    assert (Hdq : Z.pos (digits2_pos q) = dg - Z.of_nat k).
    { unfold dg. rewrite HM, shifted_digits. lia. }
    exists q, e'. unfold binary_round_aux.
    rewrite HM at 1. rewrite shr_fexp_shifts; [| lia |].
    2:{ rewrite <- HM. fold dg. fold e'. lia. }
    simpl.
    rewrite shr_fexp_keeps.
    2:{ rewrite Hdq. replace (dg - Z.of_nat k + (E + Z.of_nat k)) with (dg + E) by lia.
        fold e'. lia. }
    simpl. replace (E + Z.of_nat k) with e' by lia.
    split.
    + destruct (Z.leb e' (1024 - 53)) eqn:Hle; [done|]. apply Z.leb_gt in Hle. lia.
    + unfold float64_trunc_magnitude. clear Hfexp. destruct e' as [|p|p] eqn:Hep.
      * change (Z.pos q * 1 = n * 1) in Hq. change (Z.pos q * 1 = n). lia.
      * rewrite Z.max_l, Z.max_r in Hq by lia. lia.
      * rewrite Z.max_r, Z.max_l in Hq by lia.
        change (- Z.neg p) with (Z.pos p) in Hq.
        rewrite Z.mul_1_r in Hq. rewrite Hq. apply Z.div_mul.
        pose proof (Z.pow_pos_nonneg 2 (Z.pos p)). lia.
Qed.

Lemma NanoCPUs_whole (unrepresentable : float64 -> Z) (cpu : float64) (n : Z) :
  0 <= n < 2 ^ 63 -> float64_whole n ->
  float64_times_is cpu 1000000000 n ->
  float64_to_int64 unrepresentable (float64_mul cpu (float64_of_const NanoCPUCoefficient)) = n.
Proof.
  intros Hn (a & b & Ha & Hb & Hab) Hval.
  change (float64_of_const NanoCPUCoefficient)
    with (S754_finite false 8388608000000000 (-23)).
  destruct cpu as [s| | |s m e]; unfold float64_times_is in Hval; [by subst n|done..|].
  destruct s.
  { exfalso.
    pose proof (Z.pow_pos_nonneg 2 (Z.max e 0)).
    pose proof (Z.pow_pos_nonneg 2 (Z.max (- e) 0)). nia. }
  assert (Hpos : 0 < n).
  { pose proof (Z.pow_pos_nonneg 2 (Z.max e 0)).
    pose proof (Z.pow_pos_nonneg 2 (Z.max (- e) 0)). nia. }
  destruct (binary_round_aux_whole (m * 8388608000000000) (e + -23) n a b)
    as (m' & e' & Hr & Ht); [lia | done | done | done | |].
  { rewrite Pos2Z.inj_mul.
    change (Z.pos 8388608000000000) with (1000000000 * 2 ^ 23).
    destruct (Z.le_gt_cases 23 e) as [He|He].
    - rewrite (Z.max_l (e + -23)), (Z.max_r (- (e + -23))) by lia.
      rewrite Z.max_l, Z.max_r in Hval by lia.
      replace e with (23 + (e + -23)) in Hval at 1 by lia.
      rewrite Z.pow_add_r in Hval by lia. lia.
    - rewrite (Z.max_r (e + -23)), (Z.max_l (- (e + -23))) by lia.
      destruct (Z.le_gt_cases 0 e) as [He0|He0].
      + rewrite Z.max_l, Z.max_r in Hval by lia.
        replace 23 with (e + - (e + -23)) at 1 by lia.
        rewrite Z.pow_add_r by lia. nia.
      + rewrite Z.max_r, Z.max_l in Hval by lia.
        replace (- (e + -23)) with (- e + 23) by lia.
        rewrite Z.pow_add_r by lia. nia. }
  unfold float64_mul, SFmul. simpl xorb. rewrite Hr.
  unfold float64_to_int64. rewrite Ht.
  rewrite bool_decide_eq_true_2; [done|]. lia.
Qed.

Lemma float64_whole_below_2_53 (n : Z) : 0 <= n < 2 ^ 53 -> float64_whole n.
Proof. intros Hn. exists n, 0. repeat split; lia. Qed.

(** ** Resources (C2) *)

(** C2, refuted as stated: with ten thousand million CPUs (10^10, a
    binary64 number) and 2^63 bytes of memory required, the CPU fraction
    times 10^9 is 10^19, yet the host configuration handed on has a CPU
    quota of -2^63 (the conversion to [int64] is out of range, here with
    the result of amd64) and a memory limit of -2^63. *)
Lemma resources_out_of_range_wrap :
  float64_times_is (model.CPU huge_requirements) 1000000000 (10 ^ 19) ∧
  0 <= model.Memory huge_requirements < 2 ^ 64 ∧
  ∃ c config hostConfig,
    OpSetupNetworkForJob c config hostConfig
      ∈ trace (example_world huge_requirements [] None (container.statusCh 0 None))
              {| ID := "node" |} (context_Incoming "caller")
              (example_shard "job" 0 []) "/results" ∅ ∧
    container.NanoCPUs (container.Resources hostConfig) = - 2 ^ 63 ∧
    container.NanoCPUs (container.Resources hostConfig) ≠ 10 ^ 19 ∧
    container.Memory (container.Resources hostConfig) = - 2 ^ 63 ∧
    container.Memory (container.Resources hostConfig) ≠ model.Memory huge_requirements.
Proof.
  split; [reflexivity|]. split; [done|].
  set (w := example_world huge_requirements [] None (container.statusCh 0 None)).
  set (shard := example_shard "job" 0 []).
  exists (span_ctx (context_Incoming "caller")),
         (containerConfig_built w {| ID := "node" |} shard "{}"),
         (hostConfig_built w shard []).
  split; [vm_compute; repeat constructor|].
  repeat split; done.
Qed.

(** C2, amended. In the host configuration an invocation hands on: the
    CPU quota is the CPU fraction times 10^9 whenever that product is a
    whole number below 2^63 that is a binary64 number, as every whole
    number below 2^53 is; the memory limit is the memory byte count
    whenever that is below 2^63; and there is a device request (one,
    for device "0" with the capability "gpu") if and only if the GPU
    count is above zero. *)
Theorem RunShard_resources_translated
    (w : World) (e : Executor) (ctx : Context) (shard : model.JobShard)
    (jobResultsDir : string) (d : gmap string Z)
    (c : Context) (config : container.Config) (hostConfig : container.HostConfig) :
  OpSetupNetworkForJob c config hostConfig ∈ trace w e ctx shard jobResultsDir d ->
  let requirements :=
    capacity_ParseResourceUsageConfig w (model.Resources (model.Spec (model.Job shard))) in
  let limits := container.Resources hostConfig in
  (∀ n, float64_times_is (model.CPU requirements) 1000000000 n ->
        0 <= n < 2 ^ 53 ∨ (0 <= n < 2 ^ 63 ∧ float64_whole n) ->
        container.NanoCPUs limits = n) ∧
  (0 <= model.Memory requirements < 2 ^ 63 ->
   container.Memory limits = model.Memory requirements) ∧
  (container.DeviceRequests limits ≠ [] <-> model.GPU requirements > 0) ∧
  container.DeviceRequests limits
  = (if bool_decide (model.GPU requirements > 0)
     then [ {| container.DeviceIDs := ["0"]; container.Capabilities := [["gpu"]] |} ]
     else []).
Proof.
  intros Hin requirements limits.
  assert (hostConfig = hostConfig_built w shard (container.Mounts hostConfig)) as Hhc.
  { apply trace_step in Hin as (r & steps & da & H & Hin & _); [|simpl; tauto].
    destruct H; in_steps Hin; by injection Hin as _ _ ->. }
  subst limits. rewrite Hhc. simpl.
  fold (resourceRequirements w shard). subst requirements.
  fold (resourceRequirements w shard).
  split; [|split; [|split]].
  - intros n Hval [Hn|[Hn Hw]]; apply NanoCPUs_whole; try done.
    + lia.
    + by apply float64_whole_below_2_53.
  - intros Hm. unfold int64_wrap.
    change (2 ^ 63) with 9223372036854775808 in *.
    change (2 ^ 64) with 18446744073709551616.
    rewrite Z.mod_small by lia. lia.
  - destruct (bool_decide (model.GPU (resourceRequirements w shard) > 0)) eqn:Hg.
    + apply bool_decide_eq_true in Hg. split; [done|]. intros _. discriminate.
    + apply bool_decide_eq_false in Hg. split; [done|]. intros ?. done.
  - done.
Qed.

(** ** The submit-request check (C10) *)

Section VerifySubmitRequestProperties.
Variable JobCreatePayload : Type.
Variable ClientID : JobCreatePayload -> string.
Variable system_PublicKeyMatchesID : string -> string -> bool * option error.
Variable model_JSONMarshalWithMax : JobCreatePayload -> error + string.
Variable system_Verify : string -> string -> string -> option error.

Abbreviation submitRequest := (publicapi.submitRequest JobCreatePayload).
Abbreviation JobCreatePayload_ := (publicapi.JobCreatePayload_ JobCreatePayload).
Abbreviation ClientSignature := (publicapi.ClientSignature JobCreatePayload).
Abbreviation ClientPublicKey := (publicapi.ClientPublicKey JobCreatePayload).
Abbreviation verifySubmitRequest :=
  (publicapi.verifySubmitRequest JobCreatePayload ClientID system_PublicKeyMatchesID
     model_JSONMarshalWithMax system_Verify).
Abbreviation request_in_order :=
  (publicapi.request_in_order JobCreatePayload ClientID system_PublicKeyMatchesID
     model_JSONMarshalWithMax system_Verify).
Abbreviation first_violation :=
  (publicapi.first_violation JobCreatePayload ClientID system_PublicKeyMatchesID
     model_JSONMarshalWithMax system_Verify).

Lemma verifySubmitRequest_None (req : submitRequest) :
  verifySubmitRequest req = None <-> request_in_order req.
Proof.
  unfold publicapi.verifySubmitRequest, publicapi.request_in_order.
  destruct (decide (ClientID (JobCreatePayload_ req) = "")) as [Hid|Hid];
    [ split; [discriminate | tauto] |].
  destruct (decide (ClientSignature req = "")) as [Hs|Hs];
    [ split; [discriminate | tauto] |].
  destruct (decide (ClientPublicKey req = "")) as [Hk|Hk];
    [ split; [discriminate | tauto] |].
  destruct (system_PublicKeyMatchesID _ _) as [ok [err|]] eqn:Hm.
  { split; [discriminate | intros (_ & _ & _ & [=] & _)]. }
  destruct ok; simpl.
  2:{ split; [discriminate | intros (_ & _ & _ & [=] & _)]. }
  destruct (model_JSONMarshalWithMax _) as [err|jsonData] eqn:Hj.
  { split; [discriminate | intros (_ & _ & _ & _ & j & [=] & _)]. }
  destruct (system_Verify _ _ _) as [err|] eqn:Hv.
  - split; [discriminate |].
    intros (_ & _ & _ & _ & j & [= <-] & Hv'). congruence.
  - split; [intros _ | done]. repeat split; try done. by exists jsonData.
Qed.

Lemma verifySubmitRequest_Some (req : submitRequest) (err : error) :
  verifySubmitRequest req = Some err <-> first_violation req err.
Proof.
  unfold publicapi.verifySubmitRequest. split.
  - destruct (decide (ClientID (JobCreatePayload_ req) = "")) as [Hid|Hid];
      [ intros [= <-]; by constructor |].
    destruct (decide (ClientSignature req = "")) as [Hs|Hs];
      [ intros [= <-]; by constructor |].
    destruct (decide (ClientPublicKey req = "")) as [Hk|Hk];
      [ intros [= <-]; by constructor |].
    destruct (system_PublicKeyMatchesID _ _) as [ok [e|]] eqn:Hm.
    { intros [= <-]. by econstructor. }
    destruct ok; simpl; [| intros [= <-]; by constructor ].
    destruct (model_JSONMarshalWithMax _) as [e|jsonData] eqn:Hj.
    { intros [= <-]. by constructor. }
    destruct (system_Verify _ _ _) as [e|] eqn:Hv; [| discriminate].
    intros [= <-]. by econstructor.
  - intros H; destruct H;
      repeat match goal with
             | H : ?x = _ |- context [decide (?x = "")] =>
                 destruct (decide (x = "")); [| congruence]
             | H : ?x ≠ _ |- context [decide (?x = "")] =>
                 destruct (decide (x = "")); [congruence |]
             | H : ?x = _ |- context [?x] => rewrite H; simpl
             end; done.
Qed.

(** C10. [verifySubmitRequest] returns nil exactly when the payload's
    client ID, the signature and the public key are non-empty, the public
    key matches the client ID, and the signature verifies against the
    JSON-marshaled payload under that key. Otherwise it returns the error
    of the first check that fails, the checks taken in that order; the
    errors of different checks differ; and no request that fails a check
    comes back nil. *)
Theorem verifySubmitRequest_accepts_iff_all_checks_pass (req : submitRequest) :
  (verifySubmitRequest req = None <-> request_in_order req) ∧
  (∀ err, verifySubmitRequest req = Some err <-> first_violation req err) ∧
  (∀ e1 e2 e3, NoDup (publicapi.verify_errors e1 e2 e3)) ∧
  (∀ err, first_violation req err -> verifySubmitRequest req ≠ None).
Proof.
  split; [apply verifySubmitRequest_None |].
  split; [intros err; apply verifySubmitRequest_Some |].
  split.
  - intros e1 e2 e3. unfold publicapi.verify_errors.
    repeat (apply NoDup_cons; split;
            [ intros H;
              repeat (apply elem_of_cons in H as [H|H]; [discriminate H |]);
              by apply elem_of_nil in H |]).
    apply NoDup_nil_2.
  - intros err H%verifySubmitRequest_Some. congruence.
Qed.


End VerifySubmitRequestProperties.

(** ** The scenarios of the specification, run *)

(** Scenario 4: the container exits with code 137, no runtime error, the
    logs followed. *)
Lemma RunShard_wait_combines_errors_scenario :
  ∃ r : RunResult,
    result (example_world example_requirements [example_input "/host/in" "/data/in"]
                          None (container.statusCh 137 None))
           {| ID := "node" |} (context_Incoming "caller")
           (example_shard "job" 0 [example_output "out" "/data/out"]) "/results" ∅
    = Completed r ∧ exitCode r = 137 ∧ combinedError r = None.
Proof.
  destruct (RunShard_wait_combines_errors
              (example_world example_requirements [example_input "/host/in" "/data/in"]
                             None (container.statusCh 137 None))
              {| ID := "node" |} (context_Incoming "caller")
              (example_shard "job" 0 [example_output "out" "/data/out"]) "/results" ∅
              (logger_WithContext (tracer_Start (context_Incoming "caller")
                                     "pkg/executor/docker.RunShard") "Container" "c1")
              "c1")
    as (r & Hr & _ & _ & _ & _ & _ & H137).
  { vm_compute. repeat constructor. }
  exists r. split; [exact Hr|]. apply H137; reflexivity.
Defined.

(** Scenario 3: the start fails because the entrypoint is missing. *)
Lemma RunShard_start_failure_scenario :
  result (example_world example_requirements []
            (Some (errors_New "exec: foo: executable file not found in $PATH"))
            (container.statusCh 0 None))
         {| ID := "node" |} (context_Incoming "caller")
         (example_shard "job" 0 []) "/results" ∅
  = executor_FailResult (errors_Wrap (errors_New "exec: foo: executable file not found in $PATH")
                         "Executable file not found").
Proof.
  apply (RunShard_start_failure_classified
           (example_world example_requirements []
              (Some (errors_New "exec: foo: executable file not found in $PATH"))
              (container.statusCh 0 None))
           {| ID := "node" |} (context_Incoming "caller")
           (example_shard "job" 0 []) "/results" ∅
           (logger_WithContext (tracer_Start (context_Incoming "caller")
                                  "pkg/executor/docker.RunShard") "Container" "c1")
           "c1" (errors_New "exec: foo: executable file not found in $PATH")).
  - vm_compute. repeat constructor.
  - reflexivity.
  - exists "exec: foo: ", " in $PATH". reflexivity.
Defined.

(** An input volume of another kind than "bind". *)
Lemma RunShard_input_volumes_scenario :
  ∃ pre v post,
    [example_input "/host/in" "/data/in";
     ({| model.StorageSource := "s3"; model.Name := ""; model.Path := "/data/s3" |},
      {| storage.Type_ := "stream"; storage.ReadOnly := true;
         storage.Source := "bucket"; storage.Target := "/data/s3" |})]
    = pre ++ v :: post ∧
    result (example_world example_requirements
              [example_input "/host/in" "/data/in";
               ({| model.StorageSource := "s3"; model.Name := ""; model.Path := "/data/s3" |},
                {| storage.Type_ := "stream"; storage.ReadOnly := true;
                   storage.Source := "bucket"; storage.Target := "/data/s3" |})]
              None (container.statusCh 0 None))
           {| ID := "node" |} (context_Incoming "caller")
           (example_shard "job" 0 []) "/results" ∅
    = executor_FailResult (fmt_Errorf "unknown storage volume type: %s" [arg_string (storage.Type_ v.2)]).
Proof.
  destruct (RunShard_input_volumes_mounted_or_abort
              (example_world example_requirements
                 [example_input "/host/in" "/data/in";
                  ({| model.StorageSource := "s3"; model.Name := ""; model.Path := "/data/s3" |},
                   {| storage.Type_ := "stream"; storage.ReadOnly := true;
                      storage.Source := "bucket"; storage.Target := "/data/s3" |})]
                 None (container.statusCh 0 None))
              {| ID := "node" |} (context_Incoming "caller")
              (example_shard "job" 0 []) "/results" ∅ []
              [example_input "/host/in" "/data/in";
               ({| model.StorageSource := "s3"; model.Name := ""; model.Path := "/data/s3" |},
                {| storage.Type_ := "stream"; storage.ReadOnly := true;
                   storage.Source := "bucket"; storage.Target := "/data/s3" |})]
              eq_refl eq_refl) as (_ & _ & Habort).
  destruct (Habort
              ({| model.StorageSource := "s3"; model.Name := ""; model.Path := "/data/s3" |},
               {| storage.Type_ := "stream"; storage.ReadOnly := true;
                  storage.Source := "bucket"; storage.Target := "/data/s3" |}))
    as (pre & v & post & Hsplit & _ & _ & Hr & _).
  { repeat constructor. }
  { unfold is_bind. simpl. discriminate. }
  exists pre, v, post. split; [exact Hsplit | exact Hr].
Defined.

(** Scenario 2: the only output has an empty path. *)
Lemma RunShard_invalid_output_scenario :
  result (example_world example_requirements [] None (container.statusCh 0 None))
         {| ID := "node" |} (context_Incoming "caller")
         (example_shard "job" 0 [example_output "out" ""]) "/results" ∅
  = executor_FailResult (fmt_Errorf "output volume has no path: %+v"
                        [arg_StorageSpec (example_output "out" "")]) ∧
  dirs_after (example_world example_requirements [] None (container.statusCh 0 None))
             {| ID := "node" |} (context_Incoming "caller")
             (example_shard "job" 0 [example_output "out" ""]) "/results" ∅
  = ∅.
Proof.
  destruct (RunShard_invalid_output_aborts
              (example_world example_requirements [] None (container.statusCh 0 None))
              {| ID := "node" |} (context_Incoming "caller")
              (example_shard "job" 0 [example_output "out" ""]) "/results" ∅
              [] (example_output "out" "") [] eq_refl (or_intror eq_refl))
    as (_ & _ & Hexact).
  destruct (Hexact [] []) as (Hr & _ & _ & Hd).
  - split; reflexivity.
  - constructor.
  - constructor.
  - exact I.
  - split; [exact Hr | exact (Hd eq_refl)].
Defined.

(** Scenario 1, with a second output on the target of the input: the
    mount list keeps both. *)
Lemma RunShard_mounts_scenario :
  container.Mounts
    (hostConfig_built
       (example_world example_requirements [example_input "/host/in" "/data/in"]
                      None (container.statusCh 0 None))
       (example_shard "job" 0 [example_output "out" "/data/out";
                               example_output "again" "/data/in"])
       (built_mounts
          (example_world example_requirements [example_input "/host/in" "/data/in"]
                         None (container.statusCh 0 None))
          (example_shard "job" 0 [example_output "out" "/data/out";
                                  example_output "again" "/data/in"])
          "/results" [example_input "/host/in" "/data/in"]))
  = [ {| mount.Type_ := mount.TypeBind; mount.ReadOnly := true;
         mount.Source := "/host/in"; mount.Target := "/data/in" |};
      {| mount.Type_ := mount.TypeBind; mount.ReadOnly := false;
         mount.Source := "/results/out"; mount.Target := "/data/out" |};
      {| mount.Type_ := mount.TypeBind; mount.ReadOnly := false;
         mount.Source := "/results/again"; mount.Target := "/data/in" |} ].
Proof.
  destruct (RunShard_mounts_in_insertion_order
              (example_world example_requirements [example_input "/host/in" "/data/in"]
                             None (container.statusCh 0 None))
              {| ID := "node" |} (context_Incoming "caller")
              (example_shard "job" 0 [example_output "out" "/data/out";
                                      example_output "again" "/data/in"])
              "/results" ∅
              (tracer_Start (context_Incoming "caller") "pkg/executor/docker.RunShard")
              (containerConfig_built
                 (example_world example_requirements [example_input "/host/in" "/data/in"]
                                None (container.statusCh 0 None))
                 {| ID := "node" |}
                 (example_shard "job" 0 [example_output "out" "/data/out";
                                         example_output "again" "/data/in"]) "{}")
              (hostConfig_built
                 (example_world example_requirements [example_input "/host/in" "/data/in"]
                                None (container.statusCh 0 None))
                 (example_shard "job" 0 [example_output "out" "/data/out";
                                         example_output "again" "/data/in"])
                 (built_mounts
                    (example_world example_requirements [example_input "/host/in" "/data/in"]
                                   None (container.statusCh 0 None))
                    (example_shard "job" 0 [example_output "out" "/data/out";
                                            example_output "again" "/data/in"])
                    "/results" [example_input "/host/in" "/data/in"])))
    as (sss & vols & Hsss & Hvols & Hm & _).
  { vm_compute. repeat constructor. }
  injection Hvols as <-. exact Hm.
Defined.

(** Scenario 1: half a CPU, 128 MiB, no GPU. *)
Lemma RunShard_resources_scenario :
  container.Resources
    (hostConfig_built
       (example_world example_requirements [] None (container.statusCh 0 None))
       (example_shard "job" 0 []) [])
  = {| container.Memory := 134217728; container.NanoCPUs := 500000000;
       container.DeviceRequests := [] |}.
Proof.
  destruct (RunShard_resources_translated
              (example_world example_requirements [] None (container.statusCh 0 None))
              {| ID := "node" |} (context_Incoming "caller")
              (example_shard "job" 0 []) "/results" ∅
              (tracer_Start (context_Incoming "caller") "pkg/executor/docker.RunShard")
              (containerConfig_built
                 (example_world example_requirements [] None (container.statusCh 0 None))
                 {| ID := "node" |} (example_shard "job" 0 []) "{}")
              (hostConfig_built
                 (example_world example_requirements [] None (container.statusCh 0 None))
                 (example_shard "job" 0 []) []))
    as (Hcpu & Hmem & _ & Hgpu).
  { vm_compute. repeat constructor. }
  assert (container.NanoCPUs
            (container.Resources
               (hostConfig_built
                  (example_world example_requirements [] None (container.statusCh 0 None))
                  (example_shard "job" 0 []) [])) = 500000000) as Hquota.
  { apply Hcpu; [reflexivity | left; done]. }
  clear Hcpu. rename Hquota into Hcpu.
  specialize (Hmem ltac:(done)).
  destruct (container.Resources _) as [mem cpu gpu]. simpl in *.
  by rewrite Hcpu, Hmem, Hgpu.
Defined.
